(** * flsim/network.py: the ns-3 THz runner, sync and async

    A shallow embedding of [Network] (src/flsim/network.py, the active
    revision, lines 1-284) and the properties of its synchronous runner
    and of its asynchronous polling state machine.

    Conventions of the embedding.
    - Python [int] is [Z]; Python [float] is the kernel's binary64
      [float], so that [/], [>] and truthiness are the IEEE operations
      Python uses.
    - Python exceptions are the constructors of [exn]; a call that can
      raise returns a [result].
    - Python [dict]s keyed by integers are [gmap Z _].
    - [self] is the record [Network]; a method that mutates [self]
      returns the new record.  What a method asks of the operating system
      (clock, process status, captured streams) is an argument; what it
      does to the operating system is returned as a list of [event]s.
    - The decoded JSON summary is held at the type the simulator's output
      contract gives it: an object whose [clientResults], when present, is
      an array of objects with an integer [id] and numeric [rxBytes],
      [doneAt], [endTime] and [roundTime], each of which may be absent
      ([Summary], [Entry]). [json.loads] itself is a parameter of the
      development, the class [JsonLoads]. *)

From Stdlib Require Import ZArith String Ascii List Sorted Floats Lia.
From stdpp Require Import base option list gmap strings.

Local Open Scope string_scope.
Local Open Scope Z_scope.

(** ** Python primitives *)

Module Py.

Inductive exn :=
| RuntimeError (msg : string)
| JSONDecodeError
| AttributeError
| TypeError
| KeyError
| ZeroDivisionError.

Inductive result (A : Type) :=
| Ok (a : A)
| Raise (e : exn).
Arguments Ok {A} a.
Arguments Raise {A} e.

Definition bind {A B} (r : result A) (k : A → result B) : result B :=
  match r with
  | Ok a => k a
  | Raise e => Raise e
  end.

(** [[f(x) for x in xs]] where [f] may raise. *)
Fixpoint map_result {A B} (f : A → result B) (xs : list A) : result (list B) :=
  match xs with
  | [] => Ok []
  | x :: xs' =>
      bind (f x) (λ y, bind (map_result f xs') (λ ys, Ok (y :: ys)))
  end.

(** [for x in xs: acc = body(acc, x)] where the body may raise. *)
Fixpoint fold_result {A S} (body : S → A → result S) (xs : list A) (acc : S)
  : result S :=
  match xs with
  | [] => Ok acc
  | x :: xs' => bind (body acc x) (fold_result body xs')
  end.

(** [bool(x)] of a float: false exactly for [0.0] and [-0.0]. *)
Definition float_truthy (x : float) : bool := negb (PrimFloat.eqb x 0%float).

(** [a / b] on floats: [ZeroDivisionError] when [b == 0.0]. *)
Definition truediv (a b : float) : result float :=
  if PrimFloat.eqb b 0%float then Raise ZeroDivisionError
  else Ok (PrimFloat.div a b).

(** [max(a, b)]: the first argument unless the second is greater. *)
Definition max (a b : float) : float :=
  if PrimFloat.ltb a b then b else a.

(** [range(n)] as integers. *)
Definition range (n : nat) : list Z := Z.of_nat <$> seq 0 n.

(** [enumerate(xs)]. *)
Definition enumerate {A} (xs : list A) : list (Z * A) :=
  imap (λ i x, (Z.of_nat i, x)) xs.

(** *** [str]

    A [string] is read as a sequence of code points below 256. *)

Definition nl : string := String (ascii_of_nat 10) "".

(** The line boundaries of [str.splitlines] below 256: LF, VT, FF, CR,
    FS, GS, RS and NEL. *)
Definition is_linebreak (c : ascii) : bool :=
  let n := nat_of_ascii c in
  bool_decide (n ∈ [10; 11; 12; 13; 28; 29; 30; 133]%nat).

(** [cur] is the line read so far. CR LF counts as one boundary; a
    final boundary opens no empty line. *)
Fixpoint splitlines_from (cur : string) (s : string) : list string :=
  match s with
  | EmptyString => if bool_decide (cur = "") then [] else [cur]
  | String c rest =>
      if bool_decide (nat_of_ascii c = 13%nat) then
        match rest with
        | String c2 rest2 =>
            if bool_decide (nat_of_ascii c2 = 10%nat)
            then cur :: splitlines_from "" rest2
            else cur :: splitlines_from "" rest
        | EmptyString => [cur]
        end
      else if is_linebreak c then cur :: splitlines_from "" rest
      else splitlines_from (cur ++ String c "") rest
  end.

Definition splitlines (s : string) : list string := splitlines_from "" s.

(** The whitespace of [str.strip] below 256: TAB..CR, FS..US, space,
    NEL and NBSP. *)
Definition is_space (c : ascii) : bool :=
  let n := nat_of_ascii c in
  bool_decide (n ∈ [9; 10; 11; 12; 13; 28; 29; 30; 31; 32; 133; 160]%nat).

Fixpoint lstrip_chars (cs : list ascii) : list ascii :=
  match cs with
  | c :: cs' => if is_space c then lstrip_chars cs' else cs
  | [] => []
  end.

Definition strip (s : string) : string :=
  string_of_list_ascii
    (rev (lstrip_chars (rev (lstrip_chars (list_ascii_of_string s))))).

Definition startswith_char (c : ascii) (s : string) : bool :=
  match s with
  | String c' _ => bool_decide (c' = c)
  | EmptyString => false
  end.

Definition endswith_char (c : ascii) (s : string) : bool :=
  match rev (list_ascii_of_string s) with
  | c' :: _ => bool_decide (c' = c)
  | [] => false
  end.

End Py.

Import Py.

(** [x ← r; k] runs [r] and passes its value on, or re-raises. *)
#[global] Instance result_mbind : MBind result := λ A B k r, Py.bind r k.
#[global] Instance result_mret : MRet result := λ A a, Ok a.

(** ** Data model *)

(** One element of the [array] argument: a raw integer, or a client
    object carrying a [client_id]. *)
Inductive client_arg :=
| RawId (z : Z)
| ClientObj (client_id : Z).

(** One entry of the summary's [clientResults]; an absent key is [None]. *)
Record Entry := {
  e_id : option Z;
  e_rxBytes : option float;
  e_doneAt : option float;
  e_endTime : option float;
  e_roundTime : option float;
}.

(** The decoded summary object; [clientResults] may be absent. *)
Record Summary := {
  clientResults : option (list Entry);
}.

(** [{'roundTime': ..., 'throughput': ...}] *)
Record SyncMetric := {
  s_roundTime : float;
  s_throughput : float;
}.

(** [{'startTime': ..., 'endTime': ..., 'throughput': ...}] *)
Record AsyncMetric := {
  a_startTime : float;
  a_endTime : float;
  a_throughput : float;
}.

(** [self._thz_cfg] *)
Record ThzCfg := {
  pkt_size : Z;
  sim_time : float;
  interval_us : Z;
  way : Z;
  radius : float;
  beamwidth : float;
  gain : float;
  ap_angle : float;
  sta_angle : float;
  useWhiteList : Z;
}.

(** One element of an argument list: a literal, or an f-string flag
    [--name=value] kept with its value unrendered. *)
Inductive arg :=
| Lit (s : string)
| FlagInt (name : string) (v : Z)
| FlagFloat (name : string) (v : float).

(** [subprocess.CompletedProcess] *)
Record CompletedProcess := {
  returncode : Z;
  stdout : string;
  stderr : string;
}.

(** [subprocess.Popen]: the handle of a launched process. What the
    process does is observed through [PollEnv]. *)
Record Popen := {
  popen_args : list arg;
}.

(** What a method does to the operating system. *)
Inductive event :=
| EvRun (cmd : list arg)
| EvPopen (cmd : list arg)
| EvTerminate
| EvKill.

(** The outcome of [communicate(timeout=2)]. *)
Inductive comm_outcome :=
| CommDone (out err : string)
| TimeoutExpired.

(** What one call of [readAsyncResponse] can observe. *)
Record PollEnv := {
  env_poll : option Z;              (* self._proc.poll() *)
  env_time : float;                 (* time.time() *)
  env_comm_timeout : comm_outcome;  (* self._proc.communicate(timeout=2) *)
  env_comm : string * string;       (* self._proc.communicate() *)
}.

(** [self] *)
Record Network := {
  num_clients : Z;
  _thz_cfg : ThzCfg;
  _model_bytes : Z;
  _proc : option Popen;
  _async_ids : list Z;
  _async_queue : list (gmap Z AsyncMetric);
  _deadline : option float;
}.

(** What [readAsyncResponse] returns: a dict ([{}] while running, or one
    client's [{id: metric}]), or the string ['end']. *)
Inductive Response :=
| RDict (d : gmap Z AsyncMetric)
| REnd.

Definition PATH : string := "../ns3-fl-network".
Definition PROGRAM : string := "scratch/thz-macro-central".

(** [json.loads] on a line that starts with an opening and ends with a
    closing brace: the decoded summary, or [None] when it raises. *)
Class JsonLoads := json_loads : string → option Summary.

(** ** The methods of [Network] *)

Section Methods.

Context {loads : JsonLoads}.

(** [__init__] (lines 24-58), from the resolved configuration values and
    the outcome of the one-time build. *)
Definition new_Network (total : Z) (thz : ThzCfg) (model_size : Z)
    (build : CompletedProcess) : result Network :=
  if bool_decide (returncode build ≠ 0) then
    Raise (RuntimeError ("ns-3 build failed:" ++ nl ++ stderr build))
  else
    Ok {| num_clients := total;
          _thz_cfg := thz;
          _model_bytes := model_size;
          _proc := None;
          _async_ids := [];
          _async_queue := [];
          _deadline := None |}.

(** [c.client_id] *)
Definition client_id_of (c : client_arg) : result Z :=
  match c with
  | ClientObj i => Ok i
  | RawId _ => Raise AttributeError
  end.

(** [int(c)] *)
Definition int_of (c : client_arg) : result Z :=
  match c with
  | RawId z => Ok z
  | ClientObj _ => Raise TypeError
  end.

(** [parse_clients] (lines 66-69) *)
Definition parse_clients (clients : list client_arg) : result (list Z) :=
  match clients with
  | ClientObj _ :: _ => map_result client_id_of clients
  | _ => map_result int_of clients
  end.

(** [x in (0, 1)] *)
Definition in_0_1 (x : client_arg) : bool :=
  match x with
  | RawId z => bool_decide (z = 0) || bool_decide (z = 1)
  | ClientObj _ => false
  end.

(** [bool(flag)] *)
Definition arg_truthy (x : client_arg) : bool :=
  match x with
  | RawId z => negb (bool_decide (z = 0))
  | ClientObj _ => true
  end.

(** [len(array) == self.num_clients and all(x in (0, 1) for x in array)] *)
Definition is_bitmap (self : Network) (array : list client_arg) : bool :=
  bool_decide (Z.of_nat (length array) = num_clients self)
  && forallb in_0_1 array.

(** [[i for i, flag in enumerate(array) if flag]] *)
Definition bitmap_ids (array : list client_arg) : list Z :=
  omap (λ p, if arg_truthy p.2 then Some p.1 else None) (enumerate array).

(** Lines 119-122 and 160-163: bitmap or list of ids. *)
Definition active_ids_of (self : Network) (array : list client_arg)
  : result (list Z) :=
  if is_bitmap self array then Ok (bitmap_ids array)
  else parse_clients array.

(** [_cmd] (lines 73-90) *)
Definition _cmd (self : Network) (total_clients active_count model_bytes : Z)
  : list arg :=
  let t := _thz_cfg self in
  [ Lit "./ns3"; Lit "run"; Lit PROGRAM; Lit "--";
    FlagInt "nodeNum" total_clients;
    FlagInt "clients" active_count;
    FlagInt "modelBytes" model_bytes;
    FlagInt "pktSize" (pkt_size t);
    FlagFloat "simTime" (sim_time t);
    FlagInt "intervalUs" (interval_us t);
    FlagInt "way" (way t);
    FlagFloat "radius" (radius t);
    FlagFloat "beamwidth" (beamwidth t);
    FlagFloat "gain" (gain t);
    FlagFloat "apAngle" (ap_angle t);
    FlagFloat "staAngle" (sta_angle t);
    FlagInt "useWhiteList" (useWhiteList t) ].

(** [s.startswith('{') and s.endswith('}')] *)
Definition looks_like_object (s : string) : bool :=
  startswith_char "{"%char s && endswith_char "}"%char s.

(** The loop of lines 94-99: the last line that, stripped, looks like an
    object. *)
Definition last_json_line (out : string) : option string :=
  head (List.filter looks_like_object (strip <$> rev (splitlines out))).

(** [_parse_last_json] (lines 93-102) *)
Definition _parse_last_json (out : string) : result Summary :=
  match last_json_line out with
  | None => Raise (RuntimeError "No JSON summary found in ns-3 output.")
  | Some last =>
      match json_loads last with
      | Some data => Ok data
      | None => Raise JSONDecodeError
      end
  end.

(** [_extract_times] (lines 105-113) *)
Definition _extract_times (entry : Entry) (default_sim_time : float) : float :=
  match e_doneAt entry with
  | Some t => t
  | None =>
      match e_endTime entry with
      | Some t => t
      | None =>
          match e_roundTime entry with
          | Some t => t
          | None => default_sim_time
          end
      end
  end.

(** [(rx_bytes / done_at) if done_at and done_at > 0 else 0.0]
    (lines 146, 238 and 271) *)
Definition throughput_of (rx_bytes done_at : float) : result float :=
  if float_truthy done_at && PrimFloat.ltb 0%float done_at
  then truediv rx_bytes done_at
  else Ok 0%float.

(** [data.get('clientResults', [])] *)
Definition get_clientResults (data : Summary) : list Entry :=
  default [] (clientResults data).

(** [int(e.get('id', -1))] *)
Definition local_of (e : Entry) : Z := default (-1) (e_id e).

(** [{local: ids[local] for local in range(len(ids))}] (lines 138, 228, 260) *)
Definition id_map_of (ids : list Z) : gmap Z Z :=
  list_to_map (omap (λ local, (λ real, (local, real)) <$> ids !! Z.to_nat local)
                    (range (length ids))).

(** The body of the loop of lines 140-150. *)
Definition sync_body (self : Network) (id_map : gmap Z Z)
    (out : gmap Z SyncMetric) (e : Entry) : result (gmap Z SyncMetric) :=
  let local := local_of e in
  match id_map !! local with
  | None => Ok out
  | Some real =>
      let rx_bytes := default 0%float (e_rxBytes e) in
      let done_at := _extract_times e (sim_time (_thz_cfg self)) in
      thr ← throughput_of rx_bytes done_at;
      Ok (<[real := {| s_roundTime := done_at; s_throughput := thr |}]> out)
  end.

(** [sendRequest] (lines 117-151). [run] is what [subprocess.run] gives
    for the command, should it be reached. *)
Definition sendRequest (self : Network) (array : list client_arg)
    (run : CompletedProcess) : result (gmap Z SyncMetric) * list event :=
  match active_ids_of self array with
  | Raise e => (Raise e, [])
  | Ok [] => (Ok ∅, [])
  | Ok active_ids =>
      let cmd := _cmd self (num_clients self) (Z.of_nat (length active_ids))
                      (_model_bytes self) in
      (if bool_decide (returncode run ≠ 0) then
         Raise (RuntimeError ("ns-3 run failed:" ++ nl ++ "STDERR:" ++ nl
                              ++ stderr run ++ nl ++ "STDOUT:" ++ nl
                              ++ stdout run))
       else
         data ← _parse_last_json (stdout run);
         fold_result (sync_body self (id_map_of active_ids))
                     (get_clientResults data) ∅,
       [EvRun cmd])
  end.

(** *** The asynchronous orchestrator *)

(** Assignments to the attributes of [self]. *)
Definition set_proc (p : option Popen) (self : Network) : Network :=
  {| num_clients := num_clients self; _thz_cfg := _thz_cfg self;
     _model_bytes := _model_bytes self; _proc := p;
     _async_ids := _async_ids self; _async_queue := _async_queue self;
     _deadline := _deadline self |}.

Definition set_async_ids (ids : list Z) (self : Network) : Network :=
  {| num_clients := num_clients self; _thz_cfg := _thz_cfg self;
     _model_bytes := _model_bytes self; _proc := _proc self;
     _async_ids := ids; _async_queue := _async_queue self;
     _deadline := _deadline self |}.

Definition set_async_queue (q : list (gmap Z AsyncMetric)) (self : Network)
  : Network :=
  {| num_clients := num_clients self; _thz_cfg := _thz_cfg self;
     _model_bytes := _model_bytes self; _proc := _proc self;
     _async_ids := _async_ids self; _async_queue := q;
     _deadline := _deadline self |}.

Definition set_deadline (d : option float) (self : Network) : Network :=
  {| num_clients := num_clients self; _thz_cfg := _thz_cfg self;
     _model_bytes := _model_bytes self; _proc := _proc self;
     _async_ids := _async_ids self; _async_queue := _async_queue self;
     _deadline := d |}.

(** [sendAsyncRequest] (lines 155-185). [now] is [time.time()]. *)
Definition sendAsyncRequest (self : Network) (array : list client_arg)
    (now : float) : result () * Network * list event :=
  match _proc self with
  | Some _ =>
      (Raise (RuntimeError "Async request already in progress."), self, [])
  | None =>
      match active_ids_of self array with
      | Raise e => (Raise e, self, [])
      | Ok active_ids =>
          let self := set_async_ids active_ids self in
          let self := set_async_queue [] self in
          let self := set_deadline None self in
          match active_ids with
          | [] =>
              let self := set_proc None self in
              let self := set_async_queue [] self in
              (Ok (), self, [])
          | _ =>
              let cmd := _cmd self (num_clients self)
                              (Z.of_nat (length active_ids))
                              (_model_bytes self) in
              let self := set_proc (Some {| popen_args := cmd |}) self in
              let sim_t := sim_time (_thz_cfg self) in
              let self :=
                set_deadline
                  (Some (PrimFloat.add now
                           (Py.max 10%float (PrimFloat.mul 4%float sim_t))))
                  self in
              (Ok (), self, [EvPopen cmd])
          end
      end
  end.

(** [{int(e.get('id', -1)): e for e in data.get('clientResults', [])}]
    (lines 229 and 261): a later entry replaces an earlier one. *)
Definition results_of (data : Summary) : gmap Z Entry :=
  foldl (λ m e, <[local_of e := e]> m) ∅ (get_clientResults data).

(** [bool(ent)] of a dict: false exactly when it has no key. *)
Definition entry_truthy (e : Entry) : bool :=
  bool_decide (is_Some (e_id e)) || bool_decide (is_Some (e_rxBytes e))
  || bool_decide (is_Some (e_doneAt e)) || bool_decide (is_Some (e_endTime e))
  || bool_decide (is_Some (e_roundTime e)).

(** [bool(results.get(local))] with the entry at hand when true. *)
Definition get_truthy (results : gmap Z Entry) (local : Z) : option Entry :=
  match results !! local with
  | Some ent => if entry_truthy ent then Some ent else None
  | None => None
  end.

(** [id_map[local]] *)
Definition id_map_get (id_map : gmap Z Z) (local : Z) : result Z :=
  match id_map !! local with
  | Some real => Ok real
  | None => Raise KeyError
  end.

(** [{real_id: {'startTime': 0.0, 'endTime': done_at, 'throughput': thr}}] *)
Definition record_of (real_id : Z) (done_at thr : float) : gmap Z AsyncMetric :=
  {[ real_id := {| a_startTime := 0%float; a_endTime := done_at;
                   a_throughput := thr |} ]}.

(** The body of the loop of lines 232-248 (timeout): the record to
    append. *)
Definition timeout_body (self : Network) (id_map : gmap Z Z)
    (results : gmap Z Entry) (local : Z) : result (option (gmap Z AsyncMetric)) :=
  real_id ← id_map_get id_map local;
  match get_truthy results local with
  | Some ent =>
      let rx_bytes := default 0%float (e_rxBytes ent) in
      let done_at := _extract_times ent (sim_time (_thz_cfg self)) in
      thr ← throughput_of rx_bytes done_at;
      Ok (Some (record_of real_id done_at thr))
  | None =>
      let done_at := sim_time (_thz_cfg self) in
      let thr := 0%float in
      Ok (Some (record_of real_id done_at thr))
  end.

(** The body of the loop of lines 264-278 (normal exit): the record to
    append, or [None] on [continue]. *)
Definition finished_body (self : Network) (id_map : gmap Z Z)
    (results : gmap Z Entry) (local : Z) : result (option (gmap Z AsyncMetric)) :=
  match get_truthy results local with
  | None => Ok None
  | Some ent =>
      real_id ← id_map_get id_map local;
      let rx_bytes := default 0%float (e_rxBytes ent) in
      let done_at := _extract_times ent (sim_time (_thz_cfg self)) in
      thr ← throughput_of rx_bytes done_at;
      Ok (Some (record_of real_id done_at thr))
  end.

(** [for local in locals: ... self._async_queue.append(...)]: the queue
    when the loop ends, and the exception that ended it, if any. *)
Fixpoint append_loop (body : Z → result (option (gmap Z AsyncMetric)))
    (locals : list Z) (queue : list (gmap Z AsyncMetric))
  : list (gmap Z AsyncMetric) * option exn :=
  match locals with
  | [] => (queue, None)
  | local :: rest =>
      match body local with
      | Ok (Some r) => append_loop body rest (queue ++ [r])
      | Ok None => append_loop body rest queue
      | Raise e => (queue, Some e)
      end
  end.

(** [self._deadline is not None and time.time() > self._deadline] *)
Definition deadline_passed (self : Network) (env : PollEnv) : bool :=
  match _deadline self with
  | Some d => PrimFloat.ltb d (env_time env)
  | None => false
  end.

(** Lines 205-219: terminate, wait two seconds, kill if still alive;
    the captured standard output. *)
Definition escalate (env : PollEnv) : string * list event :=
  match env_comm_timeout env with
  | CommDone out _ => (out, [EvTerminate])
  | TimeoutExpired => ((env_comm env).1, [EvTerminate; EvKill])
  end.

(** Lines 222-226: the summary used after a timeout; an output that
    does not parse counts as one with no entries. *)
Definition timeout_data (out : string) : Summary :=
  match _parse_last_json out with
  | Ok d => d
  | Raise _ => {| clientResults := Some [] |}
  end.

(** Lines 202-251, "still running". [Some r] is an early return (or a
    raise); [None] falls through. *)
Definition phase_running (self : Network) (env : PollEnv)
  : option (result Response) * Network * list event :=
  match _proc self, env_poll env with
  | Some _, None =>
      if deadline_passed self env then
        let '(out, evs) := escalate env in
        let self := set_proc None self in
        let data := timeout_data out in
        let id_map := id_map_of (_async_ids self) in
        let results := results_of data in
        let '(queue, err) :=
          append_loop (timeout_body self id_map results)
                      (range (length (_async_ids self)))
                      (_async_queue self) in
        let self := set_async_queue queue self in
        (Raise <$> err, self, evs)
      else
        (Some (Ok (RDict ∅)), self, [])
  | _, _ => (None, self, [])
  end.

(** Lines 254-278, "finished". [Some e] is a raise. *)
Definition phase_finished (self : Network) (env : PollEnv)
  : option exn * Network :=
  match _proc self, env_poll env with
  | Some _, Some _ =>
      let out := (env_comm env).1 in
      let self := set_proc None self in
      match _parse_last_json out with
      | Raise e => (Some e, self)
      | Ok data =>
          let id_map := id_map_of (_async_ids self) in
          let results := results_of data in
          let '(queue, err) :=
            append_loop (finished_body self id_map results)
                        (range (length (_async_ids self)))
                        (_async_queue self) in
          (err, set_async_queue queue self)
      end
  | _, _ => (None, self)
  end.

(** Lines 281-284, "serve one and pop". *)
Definition phase_serve (self : Network) : Response * Network :=
  match _async_queue self with
  | r :: rest => (RDict r, set_async_queue rest self)
  | [] => (REnd, self)
  end.

(** [readAsyncResponse] (lines 187-284) *)
Definition readAsyncResponse (self : Network) (env : PollEnv)
  : result Response * Network * list event :=
  if bool_decide (_proc self = None) && bool_decide (_async_queue self = [])
  then (Ok REnd, self, [])
  else
    match phase_running self env with
    | (Some r, self, evs) => (r, self, evs)
    | (None, self, evs) =>
        match phase_finished self env with
        | (Some e, self) => (Raise e, self, evs)
        | (None, self) =>
            let '(r, self) := phase_serve self in
            (Ok r, self, evs)
        end
    end.

(** Repeated polling: the responses, one per observation. *)
Fixpoint poll_seq (self : Network) (envs : list PollEnv)
  : list (result Response) :=
  match envs with
  | [] => []
  | env :: envs' =>
      let '(r, self', _) := readAsyncResponse self env in
      r :: poll_seq self' envs'
  end.

(** The state after repeated polling. *)
Fixpoint poll_state (self : Network) (envs : list PollEnv) : Network :=
  match envs with
  | [] => self
  | env :: envs' => poll_state (readAsyncResponse self env).1.2 envs'
  end.

(** *** Vocabulary of the properties *)

(** No session: no process handle and nothing queued. *)
Definition is_idle (self : Network) : Prop :=
  _proc self = None ∧ _async_queue self = [].

(** The states of the adapter: the one after construction, and those
    any sequence of [sendAsyncRequest] and [readAsyncResponse] leads to. *)
Inductive reachable : Network → Prop :=
| reach_new total thz model_size build self :
    new_Network total thz model_size build = Ok self → reachable self
| reach_start self array now :
    reachable self → reachable (sendAsyncRequest self array now).1.2
| reach_poll self env :
    reachable self → reachable (readAsyncResponse self env).1.2.

(** While a process handle is held nothing is queued yet, and the round
    has at least one client. *)
Definition handle_inv (self : Network) : Prop :=
  _proc self ≠ None → _async_queue self = [] ∧ _async_ids self ≠ [].

(** The metric of a reported entry, with the division carried out. *)
Definition metric_of (self : Network) (e : Entry) : AsyncMetric :=
  let rx_bytes := default 0%float (e_rxBytes e) in
  let done_at := _extract_times e (sim_time (_thz_cfg self)) in
  {| a_startTime := 0%float;
     a_endTime := done_at;
     a_throughput := if PrimFloat.ltb 0%float done_at
                     then PrimFloat.div rx_bytes done_at else 0%float |}.

(** The same for the synchronous runner. *)
Definition sync_metric_of (self : Network) (e : Entry) : SyncMetric :=
  let rx_bytes := default 0%float (e_rxBytes e) in
  let done_at := _extract_times e (sim_time (_thz_cfg self)) in
  {| s_roundTime := done_at;
     s_throughput := if PrimFloat.ltb 0%float done_at
                     then PrimFloat.div rx_bytes done_at else 0%float |}.

(** The metric made up for a client the output does not report. *)
Definition synthesized (self : Network) : AsyncMetric :=
  {| a_startTime := 0%float;
     a_endTime := sim_time (_thz_cfg self);
     a_throughput := 0%float |}.

(** One record per active client, in the order of the active set:
    the reported metric, or the synthesized one. *)
Definition timeout_records (self : Network) (data : Summary)
  : list (gmap Z AsyncMetric) :=
  (λ p : Z * Z,
     {[ p.2 := match results_of data !! p.1 with
               | Some e => metric_of self e
               | None => synthesized self
               end ]})
  <$> enumerate (_async_ids self).

(** One record per active client whose local index the output reports,
    in the order of the active set. *)
Definition reported_records (self : Network) (data : Summary)
  : list (gmap Z AsyncMetric) :=
  omap (λ p : Z * Z,
          (λ e, {[ p.2 := metric_of self e ]}) <$> results_of data !! p.1)
       (enumerate (_async_ids self)).

(** What a poll answers from a queue: its first record, or the end
    sentinel. *)
Definition served (q : list (gmap Z AsyncMetric)) : result Response :=
  match q with
  | r :: _ => Ok (RDict r)
  | [] => Ok REnd
  end.

(** The responses of a drained session: the queued records in order,
    then the end sentinel for every further poll. *)
Definition drained (q : list (gmap Z AsyncMetric)) (polls : nat)
  : list (result Response) :=
  take polls (((λ d, Ok (RDict d)) <$> q) ++ replicate polls (Ok REnd)).

End Methods.

(** ** A sample round

    Ten configured clients, the default THz parameters, the active set
    [3, 7, 9], and a simulator output whose summary reports the local
    indices 0 and 2 only. *)

Module Sample.

Definition dq : string := String (ascii_of_nat 34) "".

(** A quoted key followed by a colon. *)
Definition key (k : string) : string := dq ++ k ++ dq ++ ": ".

Definition thz : ThzCfg :=
  {| pkt_size := 600; sim_time := 0x1.999999999999ap-1%float (* 0.8 *); interval_us := 20; way := 3;
     radius := 0.5%float; beamwidth := 40%float; gain := 30%float;
     ap_angle := 0%float; sta_angle := 180%float; useWhiteList := 0 |}.

(** The adapter after construction. *)
Definition idle : Network :=
  {| num_clients := 10; _thz_cfg := thz; _model_bytes := 1600;
     _proc := None; _async_ids := []; _async_queue := [];
     _deadline := None |}.

Definition ids : list client_arg := [RawId 3; RawId 7; RawId 9].

Definition entry0 : Entry :=
  {| e_id := Some 0; e_rxBytes := Some 1000%float;
     e_doneAt := Some 0.5%float; e_endTime := None; e_roundTime := None |}.

Definition entry2 : Entry :=
  {| e_id := Some 2; e_rxBytes := Some 2000%float;
     e_doneAt := Some 1%float; e_endTime := None; e_roundTime := None |}.

Definition summary : Summary := {| clientResults := Some [entry0; entry2] |}.

(** The summary as the simulator prints it, on one line. *)
Definition summary_line : string :=
  "{" ++ key "clientResults" ++ "[{"
    ++ key "id" ++ "0, " ++ key "rxBytes" ++ "1000, " ++ key "doneAt" ++ "0.5}, {"
    ++ key "id" ++ "2, " ++ key "rxBytes" ++ "2000, " ++ key "doneAt" ++ "1.0}]}".

(** [json.loads] where the sample needs it: on [summary_line]. *)
Definition loads : JsonLoads := λ s,
  if bool_decide (s = summary_line) then Some summary else None.

(** Diagnostics, then the summary, then a trailing newline. *)
Definition output : string :=
  "Waf: Entering directory" ++ nl ++ "  " ++ summary_line ++ " " ++ nl.

Definition run_ok : CompletedProcess :=
  {| returncode := 0; stdout := output; stderr := "" |}.

Definition run_failed : CompletedProcess :=
  {| returncode := 1; stdout := output; stderr := "assert failed" |}.

(** The process is alive and the clock is at [t]. *)
Definition alive (t : float) : PollEnv :=
  {| env_poll := None; env_time := t;
     env_comm_timeout := CommDone "" ""; env_comm := ("", "") |}.

(** The process has exited with status [rc] and printed [output]. *)
Definition exited (rc : Z) (t : float) : PollEnv :=
  {| env_poll := Some rc; env_time := t;
     env_comm_timeout := CommDone output ""; env_comm := (output, "") |}.

#[local] Existing Instance loads.

(** The build that precedes construction succeeded. *)
Definition build_ok : CompletedProcess :=
  {| returncode := 0; stdout := ""; stderr := "" |}.

(** The active set [3, 7, 9] as a bitmap over the ten clients. *)
Definition bitmap : list client_arg :=
  RawId <$> [0; 0; 0; 1; 0; 0; 0; 1; 0; 1].

(** One second after construction a round is started; its deadline is
    at eleven seconds. *)
Definition running : Network := (sendAsyncRequest idle ids 1%float).1.2.

(** At twelve seconds the process is still alive and has printed
    nothing: the poll kills it, serves the record of client 3 and keeps
    those of clients 7 and 9. *)
Definition draining : Network := (readAsyncResponse running (alive 12%float)).1.2.

(** An adapter configured for two clients. *)
Definition pair : Network :=
  {| num_clients := 2; _thz_cfg := thz; _model_bytes := 1600;
     _proc := None; _async_ids := []; _async_queue := [];
     _deadline := None |}.

(** What the synchronous run of the sample returns. *)
Definition sync_out : gmap Z SyncMetric :=
  <[ 9 := {| s_roundTime := 1%float; s_throughput := 2000%float |} ]>
    (<[ 3 := {| s_roundTime := 0.5%float; s_throughput := 2000%float |} ]> ∅).

(** The records the sample round can produce. *)
Definition reported3 : gmap Z AsyncMetric :=
  {[ 3 := {| a_startTime := 0%float; a_endTime := 0.5%float;
             a_throughput := 2000%float |} ]}.

Definition reported9 : gmap Z AsyncMetric :=
  {[ 9 := {| a_startTime := 0%float; a_endTime := 1%float;
             a_throughput := 2000%float |} ]}.

Definition made_up (real : Z) : gmap Z AsyncMetric :=
  {[ real := {| a_startTime := 0%float; a_endTime := sim_time thz;
                a_throughput := 0%float |} ]}.

End Sample.

(** ** Vocabulary of the further properties *)

(** [''.join(l + '\n' for l in lines)]: every line followed by a newline. *)
Definition unlines (lines : list string) : string :=
  foldr (λ l acc, l ++ nl ++ acc) "" lines.

(** No character of [l] is a line boundary. *)
Definition one_line (l : string) : bool :=
  forallb (λ c, negb (is_linebreak c)) (list_ascii_of_string l).

(** Every character of [s] is whitespace. *)
Definition blank (s : string) : bool :=
  forallb is_space (list_ascii_of_string s).

(** A record of the round of [ids]: one client of the round, started at
    zero. *)
Definition is_client_record (ids : list Z) (r : gmap Z AsyncMetric) : Prop :=
  ∃ k m, r = {[ k := m ]} ∧ k ∈ ids ∧ a_startTime m = 0%float.

(** The entry's local index is one of [0 .. n-1]. *)
Definition in_range (n : nat) (e : Entry) : bool :=
  bool_decide (0 ≤ local_of e < Z.of_nat n).

(** A synchronous metric as the record the asynchronous path would
    deliver for client [k]. *)
Definition as_record (k : Z) (sm : SyncMetric) : gmap Z AsyncMetric :=
  {[ k := {| a_startTime := 0%float; a_endTime := s_roundTime sm;
             a_throughput := s_throughput sm |} ]}.

(** What one pass of the synchronous loop does to the result: the
    entry's metric is stored under its logical id, or the entry is
    skipped. *)
Definition sync_put (self : Network) (id_map : gmap Z Z)
    (out : gmap Z SyncMetric) (e : Entry) : gmap Z SyncMetric :=
  match id_map !! local_of e with
  | Some real => <[ real := sync_metric_of self e ]> out
  | None => out
  end.

(** ** Further sample inputs *)

Module Cases.

#[local] Existing Instance Sample.loads.

(** The summary between diagnostics, one of them starting with a brace,
    and followed by more diagnostics and an empty line. *)
Definition noisy_output : string :=
  unlines ["Waf: Entering directory"; "{not json";
           "  " ++ Sample.summary_line ++ " "; "Simulation done."; ""].

(** The process has died with status 139 and printed no summary. *)
Definition crashed : PollEnv :=
  {| env_poll := Some 139; env_time := 3%float;
     env_comm_timeout := TimeoutExpired;
     env_comm := ("Segmentation fault" ++ nl, "") |}.

(** The process is alive at twelve seconds and ignores the request to
    terminate; killed, it has printed the summary. *)
Definition stubborn : PollEnv :=
  {| env_poll := None; env_time := 12%float;
     env_comm_timeout := TimeoutExpired;
     env_comm := (Sample.output, "") |}.

(** A summary that reports client 9 twice and three indices that are
    not local indices of the round. *)
Definition entry2_late : Entry :=
  {| e_id := Some 2; e_rxBytes := Some 3000%float;
     e_doneAt := None; e_endTime := Some 2%float; e_roundTime := None |}.

Definition entry_beyond : Entry :=
  {| e_id := Some 3; e_rxBytes := Some 1%float;
     e_doneAt := Some 1%float; e_endTime := None; e_roundTime := None |}.

Definition entry_negative : Entry :=
  {| e_id := Some (-1); e_rxBytes := Some 1%float;
     e_doneAt := Some 1%float; e_endTime := None; e_roundTime := None |}.

Definition entry_anonymous : Entry :=
  {| e_id := None; e_rxBytes := Some 1%float;
     e_doneAt := Some 1%float; e_endTime := None; e_roundTime := None |}.

(** Client 7 reported with a completion time of zero. *)
Definition entry1_zero : Entry :=
  {| e_id := Some 1; e_rxBytes := Some 500%float;
     e_doneAt := Some 0%float; e_endTime := None; e_roundTime := None |}.

(** The sample's two entries among three that report no client of the
    round. *)
Definition over_summary : Summary :=
  {| clientResults :=
       Some [Sample.entry0; entry_beyond; Sample.entry2; entry_negative;
             entry_anonymous] |}.

(** The sample's two entries, then client 9 once more and client 7 with
    time zero. *)
Definition late_summary : Summary :=
  {| clientResults := Some [Sample.entry0; Sample.entry2; entry2_late; entry1_zero] |}.

(** One entry of a summary as text, from its keys and values. *)
Definition entry_text (fields : list (string * string)) : string :=
  "{" ++ String.concat ", " ((λ kv, Sample.key kv.1 ++ kv.2) <$> fields) ++ "}".

Definition summary_text (entries : list string) : string :=
  "{" ++ Sample.key "clientResults" ++ "[" ++ String.concat ", " entries ++ "]}".

Definition entry0_text : string :=
  entry_text [("id", "0"); ("rxBytes", "1000"); ("doneAt", "0.5")].

Definition entry2_text : string :=
  entry_text [("id", "2"); ("rxBytes", "2000"); ("doneAt", "1.0")].

Definition over_line : string :=
  summary_text
    [entry0_text;
     entry_text [("id", "3"); ("rxBytes", "1"); ("doneAt", "1.0")];
     entry2_text;
     entry_text [("id", "-1"); ("rxBytes", "1"); ("doneAt", "1.0")];
     entry_text [("rxBytes", "1"); ("doneAt", "1.0")]].

Definition late_line : string :=
  summary_text
    [entry0_text; entry2_text;
     entry_text [("id", "2"); ("rxBytes", "3000"); ("endTime", "2.0")];
     entry_text [("id", "1"); ("rxBytes", "500"); ("doneAt", "0.0")]].

(** [json.loads] on the three summary lines of the samples. *)
Definition loads : JsonLoads := λ s,
  if bool_decide (s = Sample.summary_line) then Some Sample.summary
  else if bool_decide (s = over_line) then Some over_summary
  else if bool_decide (s = late_line) then Some late_summary
  else None.

Definition run_over : CompletedProcess :=
  {| returncode := 0; stdout := over_line ++ nl; stderr := "" |}.

Definition run_late : CompletedProcess :=
  {| returncode := 0; stdout := late_line ++ nl; stderr := "" |}.

(** The process has exited with status 0 and printed the over-reporting
    summary. *)
Definition exited_over : PollEnv :=
  {| env_poll := Some 0; env_time := 3%float;
     env_comm_timeout := CommDone "" ""; env_comm := (over_line ++ nl, "") |}.

End Cases.

(** ** Properties *)

Local Close Scope string_scope.

(** *** Floats *)

(** A float above zero is not equal to zero. *)
Lemma ltb_zero_neq (d : float) :
  PrimFloat.ltb 0%float d = true → PrimFloat.eqb d 0%float = false.
Proof.
  rewrite FloatAxioms.ltb_spec, FloatAxioms.eqb_spec.
  replace (Prim2SF 0%float) with (S754_zero false) by reflexivity.
  destruct (Prim2SF d) as [s | s | | s m e]; cbn; try congruence.
  all: destruct s; cbn; congruence.
Qed.

Lemma throughput_of_eq (rx d : float) :
  throughput_of rx d
  = Ok (if PrimFloat.ltb 0%float d then PrimFloat.div rx d else 0%float).
Proof.
  unfold throughput_of, float_truthy, truediv.
  destruct (PrimFloat.ltb 0%float d) eqn:Hlt.
  - rewrite (ltb_zero_neq d Hlt). reflexivity.
  - rewrite andb_false_r. reflexivity.
Qed.

(** *** The ID remapper *)

Lemma omap_keys_NoDup {A B} (f : A → option (A * B)) (l : list A) :
  (∀ x p, f x = Some p → p.1 = x) → NoDup l → NoDup (omap f l).*1.
Proof.
  intros Hkey Hnd. induction Hnd as [| x l Hx Hnd IH]; cbn.
  - constructor.
  - destruct (f x) as [p |] eqn:Hfx; [| exact IH].
    cbn. constructor; [| exact IH].
    rewrite (Hkey _ _ Hfx). intros Hin.
    apply list_elem_of_fmap in Hin as [q [Hq Hin]].
    apply list_elem_of_omap in Hin as [y [Hy Hfy]].
    apply Hkey in Hfy. apply Hx. rewrite Hq, Hfy. exact Hy.
Qed.

Lemma range_NoDup (n : nat) : NoDup (range n).
Proof.
  unfold range. apply NoDup_fmap; [apply Nat2Z.inj' | apply NoDup_seq].
Qed.

Lemma elem_of_range (n : nat) (z : Z) :
  z ∈ range n ↔ 0 ≤ z ∧ (Z.to_nat z < n)%nat.
Proof.
  unfold range. rewrite list_elem_of_fmap. split.
  - intros [i [-> Hi]]. apply elem_of_seq in Hi. rewrite Nat2Z.id. lia.
  - intros [H0 Hlt]. exists (Z.to_nat z). split; [lia |].
    apply elem_of_seq. lia.
Qed.

(** Local index [local] maps to [ids[local]], and only indices in range
    are keys. *)
Lemma id_map_of_lookup (ids : list Z) (local real : Z) :
  id_map_of ids !! local = Some real
  ↔ 0 ≤ local ∧ ids !! Z.to_nat local = Some real.
Proof.
  unfold id_map_of. rewrite <- elem_of_list_to_map.
  - rewrite list_elem_of_omap. split.
    + intros [x [Hx Hf]]. apply elem_of_range in Hx.
      destruct (ids !! Z.to_nat x) eqn:E; cbn in Hf; [| discriminate].
      inversion Hf; subst. tauto.
    + intros [H0 Hl]. exists local. split.
      * apply elem_of_range. split; [exact H0 |].
        eapply lookup_lt_Some; exact Hl.
      * rewrite Hl. reflexivity.
  - apply omap_keys_NoDup; [| apply range_NoDup].
    intros x p Hf. destruct (ids !! Z.to_nat x); cbn in Hf; [| discriminate].
    inversion Hf. reflexivity.
Qed.

Lemma id_map_of_nat (ids : list Z) (i : nat) :
  id_map_of ids !! Z.of_nat i = ids !! i.
Proof.
  destruct (ids !! i) as [real |] eqn:E.
  - apply id_map_of_lookup. rewrite Nat2Z.id. split; [lia | exact E].
  - destruct (id_map_of ids !! Z.of_nat i) as [real |] eqn:E'; [| reflexivity].
    apply id_map_of_lookup in E' as [_ E']. rewrite Nat2Z.id in E'. congruence.
Qed.

(** *** The results dictionary *)

Lemma results_fold_None (es : list Entry) (m : gmap Z Entry) (local : Z) :
  foldl (λ m e, <[local_of e := e]> m) m es !! local = None
  ↔ m !! local = None ∧ Forall (λ e, local_of e ≠ local) es.
Proof.
  revert m. induction es as [| e es IH]; intros m; cbn.
  - split; [intros H; split; [exact H | constructor] | tauto].
  - rewrite IH, Forall_cons. rewrite lookup_insert_None. tauto.
Qed.

Lemma results_fold_Some (es : list Entry) (m : gmap Z Entry) (local : Z) (e : Entry) :
  foldl (λ m e, <[local_of e := e]> m) m es !! local = Some e
  → m !! local = Some e ∨ (e ∈ es ∧ local_of e = local).
Proof.
  revert m. induction es as [| e' es IH]; intros m; cbn.
  - tauto.
  - intros H. apply IH in H as [H | [Hin Hl]].
    + apply lookup_insert_Some in H as [[Hk ->] | [_ H]].
      * right. split; [left | exact Hk].
      * left. exact H.
    + right. split; [right; exact Hin | exact Hl].
Qed.

(** A local index is a key of [results] exactly when some entry reports
    it. *)
Lemma results_of_None (data : Summary) (local : Z) :
  results_of data !! local = None
  ↔ Forall (λ e, local_of e ≠ local) (get_clientResults data).
Proof.
  unfold results_of. rewrite results_fold_None, lookup_empty. tauto.
Qed.

Lemma results_of_Some (data : Summary) (local : Z) (e : Entry) :
  results_of data !! local = Some e
  → e ∈ get_clientResults data ∧ local_of e = local.
Proof.
  unfold results_of. intros H. apply results_fold_Some in H as [H | H].
  - rewrite lookup_empty in H. discriminate.
  - exact H.
Qed.

(** An entry found under a local index in range has an [id] key, so it
    is a non-empty dict. *)
Lemma results_of_truthy (data : Summary) (local : Z) (e : Entry) :
  0 ≤ local → results_of data !! local = Some e → entry_truthy e = true.
Proof.
  intros H0 H. apply results_of_Some in H as [_ Hl].
  unfold local_of in Hl. unfold entry_truthy.
  destruct (e_id e) as [i |]; cbn in *; [reflexivity | lia].
Qed.

Lemma get_truthy_results (data : Summary) (local : Z) :
  0 ≤ local → get_truthy (results_of data) local = results_of data !! local.
Proof.
  intros H0. unfold get_truthy.
  destruct (results_of data !! local) as [e |] eqn:E; [| reflexivity].
  rewrite (results_of_truthy data local e H0 E). reflexivity.
Qed.

(** *** The queue-building loops *)

(** A loop whose body does not raise appends, in order, what the body
    yields; over [range(len(ids))] that is one pass over the enumerated
    active set. *)
Lemma append_loop_from (body : Z → result (option (gmap Z AsyncMetric)))
    (G : Z * Z → option (gmap Z AsyncMetric)) (ids : list Z) (j : nat)
    (q : list (gmap Z AsyncMetric)) :
  (∀ i real, ids !! i = Some real
             → body (Z.of_nat (j + i)) = Ok (G (Z.of_nat (j + i), real)))
  → append_loop body (Z.of_nat <$> seq j (length ids)) q
    = (q ++ omap G (imap (λ i x, (Z.of_nat (j + i), x)) ids), None).
Proof.
  revert j q. induction ids as [| x ids IH]; intros j q Hbody; cbn.
  - rewrite app_nil_r. reflexivity.
  - pose proof (Hbody 0%nat x eq_refl) as H0.
    rewrite Nat.add_0_r in H0. rewrite Nat.add_0_r, H0.
    assert (Hext : imap ((λ i x0, (Z.of_nat (j + i), x0)) ∘ S) ids
                   = imap (λ i x0, (Z.of_nat (S j + i), x0)) ids).
    { apply imap_ext. intros i y _. cbn. do 2 f_equal. lia. }
    rewrite Hext.
    assert (Hrest : ∀ i real, ids !! i = Some real
              → body (Z.of_nat (S j + i)) = Ok (G (Z.of_nat (S j + i), real))).
    { intros i real Hi. specialize (Hbody (S i) real Hi).
      replace (S j + i)%nat with (j + S i)%nat by lia. exact Hbody. }
    destruct (G (Z.of_nat j, x)) as [r |].
    + rewrite (IH (S j) (q ++ [r]) Hrest). rewrite <- app_assoc. reflexivity.
    + rewrite (IH (S j) q Hrest). reflexivity.
Qed.

Lemma omap_Some_fmap {A B} (f : A → B) (l : list A) :
  omap (λ x, Some (f x)) l = f <$> l.
Proof.
  induction l as [| x l IH]; cbn; [reflexivity | rewrite IH; reflexivity].
Qed.

Lemma append_loop_enumerate (body : Z → result (option (gmap Z AsyncMetric)))
    (G : Z * Z → option (gmap Z AsyncMetric)) (ids : list Z)
    (q : list (gmap Z AsyncMetric)) :
  (∀ i real, ids !! i = Some real
             → body (Z.of_nat i) = Ok (G (Z.of_nat i, real)))
  → append_loop body (range (length ids)) q = (q ++ omap G (enumerate ids), None).
Proof.
  intros Hbody. unfold range, enumerate.
  exact (append_loop_from body G ids 0 q Hbody).
Qed.

Section Properties.

Context {loads : JsonLoads}.

(** *** One pass of each loop body *)

Lemma timeout_body_eq (self : Network) (data : Summary) (i : nat) (real : Z) :
  _async_ids self !! i = Some real
  → timeout_body self (id_map_of (_async_ids self)) (results_of data) (Z.of_nat i)
    = Ok (Some {[ real := match results_of data !! Z.of_nat i with
                          | Some e => metric_of self e
                          | None => synthesized self
                          end ]}).
Proof.
  intros Hi. unfold timeout_body, id_map_get.
  rewrite id_map_of_nat, Hi. cbn.
  rewrite get_truthy_results by lia.
  destruct (results_of data !! Z.of_nat i) as [e |]; [| reflexivity].
  rewrite throughput_of_eq. reflexivity.
Qed.

Lemma finished_body_eq (self : Network) (data : Summary) (i : nat) (real : Z) :
  _async_ids self !! i = Some real
  → finished_body self (id_map_of (_async_ids self)) (results_of data) (Z.of_nat i)
    = Ok ((λ e, {[ real := metric_of self e ]}) <$> results_of data !! Z.of_nat i).
Proof.
  intros Hi. unfold finished_body, id_map_get.
  rewrite get_truthy_results by lia.
  destruct (results_of data !! Z.of_nat i) as [e |]; [| reflexivity].
  rewrite id_map_of_nat, Hi. cbn.
  rewrite throughput_of_eq. reflexivity.
Qed.

Lemma timeout_loop_eq (self : Network) (data : Summary)
    (q : list (gmap Z AsyncMetric)) :
  append_loop (timeout_body self (id_map_of (_async_ids self)) (results_of data))
              (range (length (_async_ids self))) q
  = (q ++ timeout_records self data, None).
Proof.
  unfold timeout_records.
  rewrite (append_loop_enumerate _
             (λ p : Z * Z,
                Some {[ p.2 := match results_of data !! p.1 with
                               | Some e => metric_of self e
                               | None => synthesized self
                               end ]})).
  - rewrite omap_Some_fmap. reflexivity.
  - intros i real Hi. apply timeout_body_eq. exact Hi.
Qed.

Lemma finished_loop_eq (self : Network) (data : Summary)
    (q : list (gmap Z AsyncMetric)) :
  append_loop (finished_body self (id_map_of (_async_ids self)) (results_of data))
              (range (length (_async_ids self))) q
  = (q ++ reported_records self data, None).
Proof.
  unfold reported_records.
  apply (append_loop_enumerate _
           (λ p : Z * Z,
              (λ e, {[ p.2 := metric_of self e ]}) <$> results_of data !! p.1)).
  intros i real Hi. apply finished_body_eq. exact Hi.
Qed.

Lemma timeout_records_length (self : Network) (data : Summary) :
  length (timeout_records self data) = length (_async_ids self).
Proof.
  unfold timeout_records, enumerate. rewrite length_fmap, length_imap.
  reflexivity.
Qed.

Lemma reported_records_length (self : Network) (data : Summary) :
  (length (reported_records self data) ≤ length (_async_ids self))%nat.
Proof.
  unfold reported_records.
  assert (H : ∀ (f : Z * Z → option (gmap Z AsyncMetric)) l,
             (length (omap f l) ≤ length l)%nat).
  { intros f l. induction l as [| x l IH]; cbn; [lia |].
    destruct (f x); cbn; lia. }
  etransitivity; [apply H |]. unfold enumerate. rewrite length_imap. lia.
Qed.

(** *** One poll, case by case *)

Lemma phase_running_released (self : Network) (env : PollEnv) :
  _proc self = None → phase_running self env = (None, self, []).
Proof. intros Hp. unfold phase_running. rewrite Hp. reflexivity. Qed.

Lemma phase_running_exited (self : Network) (env : PollEnv) (rc : Z) :
  env_poll env = Some rc → phase_running self env = (None, self, []).
Proof.
  intros Hpoll. unfold phase_running. rewrite Hpoll.
  destruct (_proc self); reflexivity.
Qed.

Lemma phase_running_timeout (self : Network) (env : PollEnv) (p : Popen) :
  _proc self = Some p → env_poll env = None → deadline_passed self env = true
  → phase_running self env
    = (None,
       set_async_queue
         (_async_queue self ++ timeout_records self (timeout_data (escalate env).1))
         (set_proc None self),
       (escalate env).2).
Proof.
  intros Hp Hpoll Hdl. unfold phase_running. rewrite Hp, Hpoll, Hdl.
  destruct (escalate env) as [out evs]. cbn [fst snd].
  pose proof (timeout_loop_eq (set_proc None self) (timeout_data out)
                (_async_queue (set_proc None self))) as Hloop.
  rewrite Hloop. reflexivity.
Qed.

Lemma phase_finished_released (self : Network) (env : PollEnv) :
  _proc self = None → phase_finished self env = (None, self).
Proof. intros Hp. unfold phase_finished. rewrite Hp. reflexivity. Qed.

Lemma phase_finished_parsed (self : Network) (env : PollEnv) (p : Popen) (rc : Z)
    (data : Summary) :
  _proc self = Some p → env_poll env = Some rc
  → _parse_last_json (env_comm env).1 = Ok data
  → phase_finished self env
    = (None,
       set_async_queue (_async_queue self ++ reported_records self data)
                       (set_proc None self)).
Proof.
  intros Hp Hpoll Hparse. unfold phase_finished. rewrite Hp, Hpoll, Hparse.
  pose proof (finished_loop_eq (set_proc None self) data
                (_async_queue (set_proc None self))) as Hloop.
  rewrite Hloop. reflexivity.
Qed.

Lemma holding_not_idle (self : Network) (p : Popen) (b : bool) :
  _proc self = Some p → bool_decide (_proc self = None) && b = false.
Proof.
  intros Hp. rewrite bool_decide_eq_false_2; [reflexivity |].
  rewrite Hp. discriminate.
Qed.

Lemma poll_draining (self : Network) (env : PollEnv) :
  _proc self = None
  → readAsyncResponse self env
    = (served (_async_queue self), set_async_queue (tail (_async_queue self)) self, []).
Proof.
  intros Hp. unfold readAsyncResponse.
  rewrite (phase_running_released self env Hp).
  rewrite (phase_finished_released self env Hp).
  unfold phase_serve.
  destruct self as [n cfg mb proc ids q dl]; cbn in *. subst proc.
  destruct q as [| r rest]; reflexivity.
Qed.

Lemma poll_in_progress (self : Network) (env : PollEnv) (p : Popen) :
  _proc self = Some p → env_poll env = None → deadline_passed self env = false
  → readAsyncResponse self env = (Ok (RDict ∅), self, []).
Proof.
  intros Hp Hpoll Hdl. unfold readAsyncResponse.
  rewrite (holding_not_idle self p _ Hp).
  unfold phase_running. rewrite Hp, Hpoll, Hdl. reflexivity.
Qed.

Lemma poll_timeout (self : Network) (env : PollEnv) (p : Popen) :
  _proc self = Some p → env_poll env = None → deadline_passed self env = true
  → let q := _async_queue self
             ++ timeout_records self (timeout_data (escalate env).1) in
    readAsyncResponse self env
    = (served q, set_async_queue (tail q) (set_proc None self), (escalate env).2).
Proof.
  intros Hp Hpoll Hdl q. unfold readAsyncResponse.
  rewrite (holding_not_idle self p _ Hp).
  rewrite (phase_running_timeout self env p Hp Hpoll Hdl).
  rewrite phase_finished_released by reflexivity.
  fold q. unfold phase_serve. cbn [_async_queue set_async_queue].
  destruct q; reflexivity.
Qed.

Lemma poll_finished (self : Network) (env : PollEnv) (p : Popen) (rc : Z)
    (data : Summary) :
  _proc self = Some p → env_poll env = Some rc
  → _parse_last_json (env_comm env).1 = Ok data
  → let q := _async_queue self ++ reported_records self data in
    readAsyncResponse self env
    = (served q, set_async_queue (tail q) (set_proc None self), []).
Proof.
  intros Hp Hpoll Hparse q. unfold readAsyncResponse.
  rewrite (holding_not_idle self p _ Hp).
  rewrite (phase_running_exited self env rc Hpoll).
  rewrite (phase_finished_parsed self env p rc data Hp Hpoll Hparse).
  fold q. unfold phase_serve. cbn [_async_queue set_async_queue].
  destruct q; reflexivity.
Qed.

Lemma poll_finished_raise (self : Network) (env : PollEnv) (p : Popen) (rc : Z)
    (e : exn) :
  _proc self = Some p → env_poll env = Some rc
  → _parse_last_json (env_comm env).1 = Raise e
  → readAsyncResponse self env = (Raise e, set_proc None self, []).
Proof.
  intros Hp Hpoll Hparse. unfold readAsyncResponse.
  rewrite (holding_not_idle self p _ Hp).
  rewrite (phase_running_exited self env rc Hpoll).
  unfold phase_finished. rewrite Hp, Hpoll, Hparse. reflexivity.
Qed.

(** *** Draining *)

Lemma take_app_replicate {A} (x : A) (l : list A) (n m : nat) :
  (n ≤ m)%nat → take n (l ++ replicate m x) = take n (l ++ replicate n x).
Proof.
  revert n m. induction l as [| a l IH]; intros n m Hle.
  - rewrite !app_nil_l, !take_replicate. f_equal. lia.
  - destruct n as [| n]; [reflexivity |].
    rewrite <- !app_comm_cons. cbn [take]. f_equal.
    rewrite (IH n m) by lia. rewrite (IH n (S n)) by lia. reflexivity.
Qed.

Lemma drained_step (q : list (gmap Z AsyncMetric)) (n : nat) :
  drained q (S n) = served q :: drained (tail q) n.
Proof.
  unfold drained. destruct q as [| r rest].
  - reflexivity.
  - cbn [fmap list_fmap app take served tail]. f_equal.
    apply take_app_replicate. lia.
Qed.

(** Once the handle is released, polling hands out the queue in order and
    then the end sentinel, whatever the environment shows. *)
Lemma poll_seq_draining (self : Network) (envs : list PollEnv) :
  _proc self = None → poll_seq self envs = drained (_async_queue self) (length envs).
Proof.
  revert self. induction envs as [| env envs IH]; intros self Hp.
  - reflexivity.
  - cbn [poll_seq length]. rewrite (poll_draining self env Hp).
    rewrite IH by exact Hp. rewrite drained_step. reflexivity.
Qed.

(** *** The invariant of the process handle *)

Lemma poll_releases_or_waits (self : Network) (env : PollEnv) :
  _proc (readAsyncResponse self env).1.2 = None
  ∨ (readAsyncResponse self env).1.2 = self.
Proof.
  destruct (_proc self) as [p |] eqn:Hp.
  - destruct (env_poll env) as [rc |] eqn:Hpoll.
    + destruct (_parse_last_json (env_comm env).1) as [data | e] eqn:Hparse.
      * rewrite (poll_finished self env p rc data Hp Hpoll Hparse). left. reflexivity.
      * rewrite (poll_finished_raise self env p rc e Hp Hpoll Hparse). left. reflexivity.
    + destruct (deadline_passed self env) eqn:Hdl.
      * rewrite (poll_timeout self env p Hp Hpoll Hdl). left. reflexivity.
      * rewrite (poll_in_progress self env p Hp Hpoll Hdl). right. reflexivity.
  - rewrite (poll_draining self env Hp). left. exact Hp.
Qed.

Lemma start_handle_inv (self : Network) (array : list client_arg) (now : float) :
  handle_inv self → handle_inv (sendAsyncRequest self array now).1.2.
Proof.
  intros Hinv. unfold sendAsyncRequest.
  destruct (_proc self) as [p |] eqn:Hp; [exact Hinv |].
  destruct (active_ids_of self array) as [[| id ids] | e]; cbn [fst snd].
  - intros Hc. cbn in Hc. congruence.
  - intros _. cbn. split; [reflexivity | discriminate].
  - exact Hinv.
Qed.

Lemma poll_handle_inv (self : Network) (env : PollEnv) :
  handle_inv self → handle_inv (readAsyncResponse self env).1.2.
Proof.
  intros Hinv. destruct (poll_releases_or_waits self env) as [H | H].
  - intros Hc. congruence.
  - rewrite H. exact Hinv.
Qed.

Lemma reachable_handle_inv (self : Network) : reachable self → handle_inv self.
Proof.
  induction 1 as [total thz ms build self Hnew | self array now _ IH | self env _ IH].
  - unfold new_Network in Hnew. case_bool_decide; [discriminate |].
    inversion Hnew; subst. intros Hc. cbn in Hc. congruence.
  - apply start_handle_inv. exact IH.
  - apply poll_handle_inv. exact IH.
Qed.

Lemma timeout_records_lookup (self : Network) (data : Summary) (i : nat) (real : Z) :
  _async_ids self !! i = Some real
  → timeout_records self data !! i
    = Some {[ real := match results_of data !! Z.of_nat i with
                      | Some e => metric_of self e
                      | None => synthesized self
                      end ]}.
Proof.
  intros Hi. unfold timeout_records, enumerate.
  rewrite list_lookup_fmap, list_lookup_imap, Hi. reflexivity.
Qed.

(** *** The asynchronous state machine *)

(** C7. While the process is alive and the deadline has not passed, every
    poll answers the in-progress marker [{}] and leaves the session as it
    is, however many polls are made: no poll answers the end sentinel or a
    client's record. *)
Theorem C7_running_polls_in_progress (self : Network) (p : Popen)
    (envs : list PollEnv) :
  _proc self = Some p
  → Forall (λ env, env_poll env = None ∧ deadline_passed self env = false) envs
  → poll_seq self envs = replicate (length envs) (Ok (RDict ∅))
    ∧ poll_state self envs = self
    ∧ Forall (λ env, readAsyncResponse self env = (Ok (RDict ∅), self, [])) envs
    ∧ Forall (λ r, r ≠ Ok REnd ∧ ∀ real m, r ≠ Ok (RDict {[ real := m ]}))
             (poll_seq self envs).
Proof.
  intros Hp Henvs.
  assert (Hone : Forall (λ env, readAsyncResponse self env = (Ok (RDict ∅), self, []))
                        envs).
  { eapply Forall_impl; [exact Henvs |]. intros env [Hpoll Hdl].
    exact (poll_in_progress self env p Hp Hpoll Hdl). }
  assert (Hseq : poll_seq self envs = replicate (length envs) (Ok (RDict ∅))
                 ∧ poll_state self envs = self).
  { clear Henvs. induction Hone as [| env envs Henv _ IH]; [split; reflexivity |].
    cbn [poll_seq poll_state length replicate]. rewrite Henv. cbn [fst snd].
    destruct IH as [-> ->]. split; reflexivity. }
  destruct Hseq as [Hseq Hst]. repeat split; try assumption.
  rewrite Hseq. apply Forall_replicate. split.
  - discriminate.
  - intros real m Heq.
    assert (Hmap : (∅ : gmap Z AsyncMetric) !! real
                   = ({[ real := m ]} : gmap Z AsyncMetric) !! real)
      by congruence.
    rewrite lookup_empty, lookup_singleton_eq in Hmap. discriminate.
Qed.

(** C5. On the timeout path the queue is built with one map per active
    client, in the order of the active set, each keyed by that client's
    logical id; the poll serves the first and keeps the rest. A client whose
    local index no entry of the parsed output reports gets the synthesized
    metric: start 0, end the configured [sim_time], throughput 0. *)
Theorem C5_timeout_synthesizes (self : Network) (p : Popen) (env : PollEnv) :
  reachable self → _proc self = Some p
  → env_poll env = None → deadline_passed self env = true
  → ∃ queue : list (gmap Z AsyncMetric),
      readAsyncResponse self env
      = (served queue, set_async_queue (tail queue) (set_proc None self),
         (escalate env).2)
      ∧ length queue = length (_async_ids self)
      ∧ ∀ (i : nat) (real : Z), _async_ids self !! i = Some real
          → (∃ m, queue !! i = Some {[ real := m ]})
            ∧ (Forall (λ e, local_of e ≠ Z.of_nat i)
                      (get_clientResults (timeout_data (escalate env).1))
               → queue !! i
                 = Some {[ real := {| a_startTime := 0%float;
                                      a_endTime := sim_time (_thz_cfg self);
                                      a_throughput := 0%float |} ]}).
Proof.
  intros Hreach Hp Hpoll Hdl.
  destruct (reachable_handle_inv self Hreach) as [Hq _]; [congruence |].
  exists (timeout_records self (timeout_data (escalate env).1)).
  split; [| split].
  - pose proof (poll_timeout self env p Hp Hpoll Hdl) as H.
    rewrite Hq in H. exact H.
  - apply timeout_records_length.
  - intros i real Hi. rewrite (timeout_records_lookup self _ i real Hi). split.
    + eexists. reflexivity.
    + intros Hnone. apply results_of_None in Hnone. rewrite Hnone. reflexivity.
Qed.

(** C1 as the code has it. From a running session, the poll that ends
    the round and the polls after it answer the built records in order and
    then the end sentinel. On the timeout path there are exactly
    [len(active ids)] records, the [i]-th keyed by the [i]-th active id. On
    the normal-exit path there is one record per active client whose local
    index the summary reports, so at most [len(active ids)]. *)
Theorem C1_drain_by_path (self : Network) (p : Popen) (env : PollEnv)
    (envs : list PollEnv) :
  reachable self → _proc self = Some p
  → (env_poll env = None → deadline_passed self env = true
     → ∃ recs : list (gmap Z AsyncMetric),
         poll_seq self (env :: envs) = drained recs (S (length envs))
         ∧ length recs = length (_async_ids self)
         ∧ ∀ (i : nat) (real : Z), _async_ids self !! i = Some real
             → ∃ m, recs !! i = Some {[ real := m ]})
    ∧ (∀ (rc : Z) (data : Summary),
         env_poll env = Some rc → _parse_last_json (env_comm env).1 = Ok data
         → poll_seq self (env :: envs)
           = drained (reported_records self data) (S (length envs))
           ∧ (length (reported_records self data) ≤ length (_async_ids self))%nat).
Proof.
  intros Hreach Hp.
  destruct (reachable_handle_inv self Hreach) as [Hq _]; [congruence |].
  split.
  - intros Hpoll Hdl.
    exists (timeout_records self (timeout_data (escalate env).1)).
    split; [| split].
    + cbn [poll_seq]. pose proof (poll_timeout self env p Hp Hpoll Hdl) as H.
      rewrite Hq in H. cbn [app] in H. rewrite H.
      rewrite poll_seq_draining by reflexivity. rewrite drained_step. reflexivity.
    + apply timeout_records_length.
    + intros i real Hi. rewrite (timeout_records_lookup self _ i real Hi).
      eexists. reflexivity.
  - intros rc data Hpoll Hparse. split; [| apply reported_records_length].
    cbn [poll_seq]. pose proof (poll_finished self env p rc data Hp Hpoll Hparse) as H.
    rewrite Hq in H. cbn [app] in H. rewrite H.
    rewrite poll_seq_draining by reflexivity. rewrite drained_step. reflexivity.
Qed.

(** *** Throughput *)

(** C8. Wherever a parsed entry is turned into a metric (the synchronous
    loop, the timeout loop, the normal-exit loop) the throughput is
    [rx_bytes / done_at] when [done_at > 0] and [0.0] otherwise, and the
    expression never raises: a zero or negative completion time does not
    reach the division. *)
Theorem C8_throughput_guarded (self : Network) (id_map : gmap Z Z)
    (results : gmap Z Entry) (out : gmap Z SyncMetric) (e : Entry) (local : Z) :
  (∀ rx_bytes done_at : float,
     throughput_of rx_bytes done_at
     = Ok (if PrimFloat.ltb 0%float done_at
           then PrimFloat.div rx_bytes done_at else 0%float))
  ∧ sync_body self id_map out e
    = Ok (match id_map !! local_of e with
          | Some real => <[ real := sync_metric_of self e ]> out
          | None => out
          end)
  ∧ timeout_body self id_map results local
    = match id_map !! local with
      | Some real =>
          Ok (Some {[ real := match get_truthy results local with
                              | Some ent => metric_of self ent
                              | None => synthesized self
                              end ]})
      | None => Raise KeyError
      end
  ∧ finished_body self id_map results local
    = match get_truthy results local with
      | Some ent =>
          match id_map !! local with
          | Some real => Ok (Some {[ real := metric_of self ent ]})
          | None => Raise KeyError
          end
      | None => Ok None
      end.
Proof.
  split; [exact throughput_of_eq |]. split; [| split].
  - unfold sync_body. destruct (id_map !! local_of e); [| reflexivity].
    rewrite throughput_of_eq. reflexivity.
  - unfold timeout_body, id_map_get. destruct (id_map !! local); [| reflexivity].
    cbn. destruct (get_truthy results local); [| reflexivity].
    rewrite throughput_of_eq. reflexivity.
  - unfold finished_body, id_map_get. destruct (get_truthy results local); [| reflexivity].
    destruct (id_map !! local); [| reflexivity].
    cbn. rewrite throughput_of_eq. reflexivity.
Qed.

(** *** The synchronous runner *)

Lemma sync_body_eq (self : Network) (id_map : gmap Z Z) (out : gmap Z SyncMetric)
    (e : Entry) :
  sync_body self id_map out e
  = Ok (match id_map !! local_of e with
        | Some real => <[ real := sync_metric_of self e ]> out
        | None => out
        end).
Proof.
  unfold sync_body. destruct (id_map !! local_of e); [| reflexivity].
  rewrite throughput_of_eq. reflexivity.
Qed.

(** The loop of lines 140-150 does not raise; a key of its result was a
    key before or is the logical id of a reported entry, with that entry's
    metric. *)
Lemma sync_loop_keys (self : Network) (id_map : gmap Z Z) (es : list Entry)
    (acc : gmap Z SyncMetric) :
  ∃ out, fold_result (sync_body self id_map) es acc = Ok out
    ∧ (∀ k m, out !! k = Some m
         → acc !! k = Some m
           ∨ ∃ e, e ∈ es ∧ id_map !! local_of e = Some k ∧ m = sync_metric_of self e)
    ∧ (∀ k, is_Some (acc !! k) ∨ (∃ e, e ∈ es ∧ id_map !! local_of e = Some k)
         → is_Some (out !! k)).
Proof.
  revert acc. induction es as [| e es IH]; intros acc.
  - exists acc. split; [reflexivity |]. split.
    + intros k m H. left. exact H.
    + intros k [H | [e [He _]]]; [exact H |]. inversion He.
  - cbn [fold_result]. rewrite sync_body_eq. cbn [Py.bind].
    set (acc' := match id_map !! local_of e with
                 | Some real => <[ real := sync_metric_of self e ]> acc
                 | None => acc
                 end).
    destruct (IH acc') as [out [Hfold [Hfrom Hinto]]].
    exists out. split; [exact Hfold |]. split.
    + intros k m Hk. destruct (Hfrom k m Hk) as [Hacc | [e' [He' Hrest]]].
      * subst acc'. destruct (id_map !! local_of e) as [real |] eqn:Hid.
        -- apply lookup_insert_Some in Hacc as [[<- <-] | [_ Hacc]].
           ++ right. exists e. split; [left | split; [exact Hid | reflexivity]].
           ++ left. exact Hacc.
        -- left. exact Hacc.
      * right. exists e'. split; [right; exact He' | exact Hrest].
    + intros k Hk. apply Hinto.
      destruct Hk as [Hacc | [e' [He' Hid']]].
      * left. subst acc'. destruct (id_map !! local_of e) as [real |]; [| exact Hacc].
        rewrite lookup_insert_is_Some. destruct (decide (real = k)); tauto.
      * apply elem_of_cons in He' as [-> | He'].
        -- left. subst acc'. rewrite Hid'. rewrite lookup_insert_eq. eauto.
        -- right. exists e'. split; assumption.
Qed.

(** What [sendRequest] does once the active set is known to be non-empty. *)
Lemma sendRequest_nonempty (self : Network) (array : list client_arg)
    (run : CompletedProcess) (ids : list Z) :
  active_ids_of self array = Ok ids → ids ≠ []
  → sendRequest self array run
    = (if bool_decide (returncode run ≠ 0) then
         Raise (RuntimeError ("ns-3 run failed:" ++ nl ++ "STDERR:" ++ nl
                              ++ stderr run ++ nl ++ "STDOUT:" ++ nl
                              ++ stdout run)%string)
       else
         data ← _parse_last_json (stdout run);
         fold_result (sync_body self (id_map_of ids)) (get_clientResults data) ∅,
       [EvRun (_cmd self (num_clients self) (Z.of_nat (length ids))
                    (_model_bytes self))]).
Proof.
  intros Hids Hne. unfold sendRequest. rewrite Hids.
  destruct ids as [| id ids]; [contradiction | reflexivity].
Qed.

(** C4 as the code has it. Every key of the mapping [sendRequest]
    returns is a requested logical id, so no client outside the active set
    gets a metric, and as a mapping it holds at most one metric per id. A
    requested id is a key exactly when the summary reports its local index;
    a client the summary leaves out has no metric. *)
Theorem C4_sync_keys_are_reported_requested (self : Network)
    (array : list client_arg) (run : CompletedProcess) (ids : list Z)
    (out : gmap Z SyncMetric) (evs : list event) :
  active_ids_of self array = Ok ids
  → sendRequest self array run = (Ok out, evs)
  → (∀ k, is_Some (out !! k) → k ∈ ids)
    ∧ (ids ≠ []
       → ∃ data, _parse_last_json (stdout run) = Ok data
           ∧ ∀ k, is_Some (out !! k)
                  ↔ ∃ (e : Entry) (i : nat),
                      e ∈ get_clientResults data
                      ∧ local_of e = Z.of_nat i ∧ ids !! i = Some k).
Proof.
  intros Hids Hsend.
  destruct (decide (ids = [])) as [-> | Hne].
  - unfold sendRequest in Hsend. rewrite Hids in Hsend. inversion Hsend; subst.
    split; [| intros Hc; contradiction].
    intros k [m Hk]. rewrite lookup_empty in Hk. discriminate.
  - rewrite (sendRequest_nonempty self array run ids Hids Hne) in Hsend.
    case_bool_decide; [inversion Hsend |].
    destruct (_parse_last_json (stdout run)) as [data | e] eqn:Hparse;
      [| inversion Hsend].
    cbn [mbind result_mbind Py.bind] in Hsend.
    destruct (sync_loop_keys self (id_map_of ids) (get_clientResults data) ∅)
      as [out' [Hfold [Hfrom Hinto]]].
    rewrite Hfold in Hsend. inversion Hsend; subst out' evs.
    assert (Hiff : ∀ k, is_Some (out !! k)
                  ↔ ∃ (e : Entry) (i : nat),
                      e ∈ get_clientResults data
                      ∧ local_of e = Z.of_nat i ∧ ids !! i = Some k).
    { intros k. split.
      - intros [m Hk]. destruct (Hfrom k m Hk) as [Hc | [e [He [Hid _]]]].
        + rewrite lookup_empty in Hc. discriminate.
        + apply id_map_of_lookup in Hid as [H0 Hl].
          exists e, (Z.to_nat (local_of e)). split; [exact He |].
          split; [lia | exact Hl].
      - intros [e [i [He [Hl Hi]]]]. apply Hinto. right. exists e.
        split; [exact He |]. rewrite Hl, id_map_of_nat. exact Hi. }
    split.
    + intros k Hk. apply Hiff in Hk as [e [i [_ [_ Hi]]]].
      eapply list_elem_of_lookup_2; exact Hi.
    + intros _. exists data. split; [reflexivity | exact Hiff].
Qed.

(** *** Normalizing the active set *)

Lemma elem_of_flagged (l : list client_arg) (j : nat) (z : Z) :
  z ∈ omap (λ p : Z * client_arg, if arg_truthy p.2 then Some p.1 else None)
           (imap (λ i x, (Z.of_nat (j + i), x)) l)
  ↔ ∃ (i : nat) (x : client_arg),
      l !! i = Some x ∧ arg_truthy x = true ∧ z = Z.of_nat (j + i).
Proof.
  rewrite list_elem_of_omap. split.
  - intros [[k x] [Hin Hf]]. apply elem_of_lookup_imap in Hin as [i [y [Heq Hl]]].
    inversion Heq; subst. cbn in Hf. exists i, y.
    destruct (arg_truthy y); [| discriminate]. inversion Hf. tauto.
  - intros [i [x [Hl [Ht ->]]]]. exists (Z.of_nat (j + i), x). split.
    + apply elem_of_lookup_imap. exists i, x. tauto.
    + cbn. rewrite Ht. reflexivity.
Qed.

Lemma flagged_sorted (l : list client_arg) (j : nat) :
  StronglySorted Z.lt
    (omap (λ p : Z * client_arg, if arg_truthy p.2 then Some p.1 else None)
          (imap (λ i x, (Z.of_nat (j + i), x)) l)).
Proof.
  revert j. induction l as [| x l IH]; intros j; cbn [imap omap list_omap].
  - constructor.
  - assert (Hext : imap ((λ i x0, (Z.of_nat (j + i), x0)) ∘ S) l
                   = imap (λ i x0, (Z.of_nat (S j + i), x0)) l).
    { apply imap_ext. intros i y _. cbn. do 2 f_equal. lia. }
    rewrite Hext. cbn [snd fst]. destruct (arg_truthy x); [| apply IH].
    constructor; [apply IH |].
    apply Forall_forall. intros z Hz.
    apply elem_of_flagged in Hz as [i [y [_ [_ ->]]]]. lia.
Qed.

Lemma parse_raw_ids (ids : list Z) : parse_clients (RawId <$> ids) = Ok ids.
Proof.
  assert (H : map_result int_of (RawId <$> ids) = Ok ids).
  { induction ids as [| z ids IH]; [reflexivity |].
    cbn. rewrite IH. reflexivity. }
  destruct ids; exact H.
Qed.

(** C6 as the code has it. An array of length [num_clients] with
    entries 0 and 1 is read as a bitmap: it normalizes to the flagged
    indices in ascending order. The explicit list of those ids normalizes to
    the same sequence unless that list is itself of length [num_clients]
    with entries 0 and 1, in which case it is read as a bitmap too. *)
Theorem C6_bitmap_and_list_agree (self : Network) (bitmap : list client_arg) :
  is_bitmap self bitmap = true
  → active_ids_of self bitmap = Ok (bitmap_ids bitmap)
    ∧ StronglySorted Z.lt (bitmap_ids bitmap)
    ∧ (∀ i : nat, Z.of_nat i ∈ bitmap_ids bitmap ↔ bitmap !! i = Some (RawId 1))
    ∧ (is_bitmap self (RawId <$> bitmap_ids bitmap) = false
       → active_ids_of self (RawId <$> bitmap_ids bitmap)
         = Ok (bitmap_ids bitmap)).
Proof.
  intros Hbm. split; [| split; [| split]].
  - unfold active_ids_of. rewrite Hbm. reflexivity.
  - exact (flagged_sorted bitmap 0).
  - intros i. unfold bitmap_ids, enumerate.
    rewrite (elem_of_flagged bitmap 0 (Z.of_nat i)).
    apply andb_prop in Hbm as [_ Hall]. rewrite forallb_forall in Hall.
    split.
    + intros [i' [x [Hl [Ht Heq]]]]. assert (i' = i) by lia. subst i'.
      rewrite Hl. f_equal.
      assert (Hin : In x bitmap).
      { apply list_elem_of_In. eapply list_elem_of_lookup_2. exact Hl. }
      specialize (Hall x Hin). destruct x as [z |]; [| discriminate].
      cbn in Hall, Ht. repeat case_bool_decide; subst; cbn in *;
        congruence.
    + intros Hl. exists i, (RawId 1). split; [exact Hl |]. split; [reflexivity | lia].
  - intros Hnot. unfold active_ids_of. rewrite Hnot. apply parse_raw_ids.
Qed.

(** *** Starting a round *)

Lemma all_zero_normalizes (self : Network) (array : list client_arg) :
  array = []
  ∨ (Z.of_nat (length array) = num_clients self ∧ Forall (λ x, x = RawId 0) array)
  → active_ids_of self array = Ok [].
Proof.
  intros [-> | [Hlen Hzero]].
  - unfold active_ids_of. destruct (is_bitmap self []); reflexivity.
  - unfold active_ids_of.
    assert (Hbm : is_bitmap self array = true).
    { unfold is_bitmap. rewrite bool_decide_eq_true_2 by exact Hlen. cbn.
      apply forallb_forall. intros x Hx. apply list_elem_of_In in Hx.
      rewrite Forall_forall in Hzero. rewrite (Hzero x Hx). reflexivity. }
    rewrite Hbm. f_equal. apply elem_of_nil_inv. intros z Hz.
    apply (elem_of_flagged array 0 z) in Hz as [i [x [Hl [Ht _]]]].
    rewrite Forall_forall in Hzero.
    rewrite (Hzero x) in Ht; [discriminate |].
    eapply list_elem_of_lookup_2; exact Hl.
Qed.

(** C9. For an empty request (the empty list, or a bitmap of zeros)
    [sendRequest] returns the empty mapping and [sendAsyncRequest] launches
    nothing, each without an event; started from a state that holds no
    process, [sendAsyncRequest] records an empty session, and the next poll
    answers the end sentinel. *)
Theorem C9_empty_request_spawns_nothing (self : Network)
    (array : list client_arg) (run : CompletedProcess) (now : float)
    (env : PollEnv) :
  array = []
  ∨ (Z.of_nat (length array) = num_clients self ∧ Forall (λ x, x = RawId 0) array)
  → sendRequest self array run = (Ok ∅, [])
    ∧ (sendAsyncRequest self array now).2 = []
    ∧ (_proc self = None
       → ∃ self', sendAsyncRequest self array now = (Ok (), self', [])
           ∧ _proc self' = None ∧ _async_ids self' = []
           ∧ _async_queue self' = [] ∧ _deadline self' = None
           ∧ readAsyncResponse self' env = (Ok REnd, self', [])).
Proof.
  intros Hempty. apply all_zero_normalizes in Hempty.
  split; [| split].
  - unfold sendRequest. rewrite Hempty. reflexivity.
  - unfold sendAsyncRequest. destruct (_proc self); [reflexivity |].
    rewrite Hempty. reflexivity.
  - intros Hp. unfold sendAsyncRequest. rewrite Hp, Hempty.
    eexists. split; [reflexivity |]. repeat split; reflexivity.
Qed.

(** C10. When the process handle has been released and records of the
    previous round are still queued, [sendAsyncRequest] does not raise: it
    stores the new active ids, empties the queue, so that the undelivered
    records are gone, and sets the deadline anew (none for an empty round). *)
Theorem C10_start_while_draining_discards (self : Network)
    (array : list client_arg) (now : float) (ids : list Z) :
  _proc self = None → _async_queue self ≠ []
  → active_ids_of self array = Ok ids
  → ∃ self' evs, sendAsyncRequest self array now = (Ok (), self', evs)
      ∧ _async_ids self' = ids
      ∧ _async_queue self' = []
      ∧ _deadline self'
        = match ids with
          | [] => None
          | _ => Some (PrimFloat.add now
                         (Py.max 10%float
                            (PrimFloat.mul 4%float (sim_time (_thz_cfg self)))))
          end
      ∧ (_proc self' = None ↔ ids = []).
Proof.
  intros Hp _ Hids. unfold sendAsyncRequest. rewrite Hp, Hids.
  destruct ids as [| id ids]; eexists; eexists;
    (split; [reflexivity |]); cbn; repeat split; congruence.
Qed.

Lemma map_result_raises {A B} (f : A → result B) (xs : list A) (e : exn) :
  map_result f xs = Raise e → ∃ x, x ∈ xs ∧ f x = Raise e.
Proof.
  induction xs as [| x xs IH]; cbn; [discriminate |].
  destruct (f x) as [y | e'] eqn:Hfx; cbn.
  - destruct (map_result f xs) as [ys | e'']; cbn; [discriminate |].
    intros Heq. destruct (IH Heq) as [x' [Hin Hf]].
    exists x'. split; [right; exact Hin | exact Hf].
  - intros Heq. inversion Heq; subst. exists x. split; [left | exact Hfx].
Qed.

(** Normalizing the array raises only on a list that mixes integers and
    client objects, and then not a [RuntimeError]. *)
Lemma active_ids_of_raises (self : Network) (array : list client_arg) (e : exn) :
  active_ids_of self array = Raise e → e = AttributeError ∨ e = TypeError.
Proof.
  unfold active_ids_of, parse_clients.
  destruct (is_bitmap self array); [discriminate |].
  destruct array as [| [z | i] rest]; intros H;
    apply map_result_raises in H as [x [_ Hx]];
    destruct x; cbn in Hx; inversion Hx; tauto.
Qed.

(** C2 as the code has it. [sendAsyncRequest] raises its usage error,
    with the session and the operating system untouched, whenever a process
    handle is held, and only then: with the handle released it does not
    raise that error, whether or not records are still queued. *)
Theorem C2_start_refused_while_handle_held (self : Network)
    (array : list client_arg) (now : float) :
  (is_Some (_proc self)
   → sendAsyncRequest self array now
     = (Raise (RuntimeError "Async request already in progress."), self, []))
  ∧ (_proc self = None
     → ∀ msg, (sendAsyncRequest self array now).1.1 ≠ Raise (RuntimeError msg)).
Proof.
  unfold sendAsyncRequest. split.
  - intros [p Hp]. rewrite Hp. reflexivity.
  - intros Hp msg. rewrite Hp.
    destruct (active_ids_of self array) as [[| id ids] | e] eqn:Hids; cbn;
      try discriminate.
    intros Heq. inversion Heq; subst.
    destruct (active_ids_of_raises self array _ Hids); discriminate.
Qed.

(** *** The exit status *)

(** On a synchronous run a non-zero exit status raises, and the message
    carries both captured streams. *)
Lemma sendRequest_nonzero_exit (self : Network) (array : list client_arg)
    (run : CompletedProcess) (ids : list Z) :
  active_ids_of self array = Ok ids → ids ≠ [] → returncode run ≠ 0
  → (sendRequest self array run).1
    = Raise (RuntimeError ("ns-3 run failed:" ++ nl ++ "STDERR:" ++ nl
                           ++ stderr run ++ nl ++ "STDOUT:" ++ nl
                           ++ stdout run)%string).
Proof.
  intros Hids Hne Hrc. rewrite (sendRequest_nonempty self array run ids Hids Hne).
  cbn [fst]. rewrite bool_decide_eq_true_2 by exact Hrc. reflexivity.
Qed.

(** [readAsyncResponse] never looks at the exit status: two observations
    that differ only in it get the same answer. *)
Lemma poll_ignores_exit_status (self : Network) (env : PollEnv) (rc rc' : Z) :
  readAsyncResponse self
    {| env_poll := Some rc; env_time := env_time env;
       env_comm_timeout := env_comm_timeout env; env_comm := env_comm env |}
  = readAsyncResponse self
      {| env_poll := Some rc'; env_time := env_time env;
         env_comm_timeout := env_comm_timeout env; env_comm := env_comm env |}.
Proof. reflexivity. Qed.

End Properties.

(** ** The sample round, evaluated *)

#[local] Existing Instance Sample.loads.

Lemma sample_running_reachable : reachable Sample.running.
Proof.
  apply reach_start.
  apply (reach_new 10 Sample.thz 1600 Sample.build_ok). reflexivity.
Qed.

Lemma sample_draining_reachable : reachable Sample.draining.
Proof. apply reach_poll. exact sample_running_reachable. Qed.

(** C7 at the sample: two polls at two and three seconds, before the
    deadline of eleven. *)
Lemma C7_witness :
  poll_seq Sample.running [Sample.alive 2%float; Sample.alive 3%float]
  = [Ok (RDict ∅); Ok (RDict ∅)]
  ∧ poll_state Sample.running [Sample.alive 2%float; Sample.alive 3%float]
    = Sample.running.
Proof.
  destruct (C7_running_polls_in_progress Sample.running
              {| popen_args := _cmd Sample.idle 10 3 1600 |}
              [Sample.alive 2%float; Sample.alive 3%float])
    as [Hseq [Hstate _]].
  - reflexivity.
  - repeat constructor.
  - split; [exact Hseq | exact Hstate].
Defined.

(** C5 at the sample: killed at twelve seconds with nothing printed,
    client 7 (local index 1) gets the synthesized metric. *)
Lemma C5_witness :
  ∃ queue : list (gmap Z AsyncMetric),
    length queue = 3%nat ∧ queue !! 1%nat = Some (Sample.made_up 7).
Proof.
  destruct (C5_timeout_synthesizes Sample.running
              {| popen_args := _cmd Sample.idle 10 3 1600 |}
              (Sample.alive 12%float))
    as [queue [_ [Hlen Hrec]]].
  - exact sample_running_reachable.
  - reflexivity.
  - reflexivity.
  - reflexivity.
  - exists queue. split; [exact Hlen |].
    apply (Hrec 1%nat 7 eq_refl). constructor.
Defined.

(** C1 at the sample, timeout path: three records, then the end. *)
Lemma C1_witness :
  ∃ recs : list (gmap Z AsyncMetric),
    poll_seq Sample.running
      [Sample.alive 12%float; Sample.alive 13%float; Sample.alive 14%float;
       Sample.alive 15%float]
    = drained recs 4
    ∧ length recs = 3%nat.
Proof.
  destruct (C1_drain_by_path Sample.running
              {| popen_args := _cmd Sample.idle 10 3 1600 |}
              (Sample.alive 12%float)
              [Sample.alive 13%float; Sample.alive 14%float; Sample.alive 15%float])
    as [Htimeout _].
  - exact sample_running_reachable.
  - reflexivity.
  - destruct (Htimeout eq_refl eq_refl) as [recs [Hseq [Hlen _]]].
    exists recs. split; [exact Hseq | exact Hlen].
Defined.

(** C1 fails on the normal-exit path: the active set has three
    clients, the summary reports local indices 0 and 2, and the polls answer
    two records and then the end sentinel. *)
Lemma C1_counterexample :
  length (_async_ids Sample.running) = 3%nat
  ∧ poll_seq Sample.running
      [Sample.exited 0 3%float; Sample.alive 4%float; Sample.alive 5%float]
    = [Ok (RDict Sample.reported3); Ok (RDict Sample.reported9); Ok REnd].
Proof. split; reflexivity. Qed.

(** C4 at the sample: client 9 has a metric, it is requested, and its
    local index 2 is reported. *)
Lemma C4_witness :
  9 ∈ [3; 7; 9]
  ∧ ∃ (e : Entry) (i : nat),
      e ∈ get_clientResults Sample.summary
      ∧ local_of e = Z.of_nat i ∧ [3; 7; 9] !! i = Some 9.
Proof.
  destruct (C4_sync_keys_are_reported_requested Sample.idle Sample.ids
              Sample.run_ok [3; 7; 9] Sample.sync_out
              [EvRun (_cmd Sample.idle 10 3 1600)])
    as [Hkeys Hreported].
  - reflexivity.
  - reflexivity.
  - assert (Hsome : is_Some (Sample.sync_out !! 9)) by (eexists; reflexivity).
    split; [exact (Hkeys 9 Hsome) |].
    destruct Hreported as [data [Hparse Hiff]]; [discriminate |].
    assert (Hdata : _parse_last_json (stdout Sample.run_ok) = Ok Sample.summary)
      by reflexivity.
    rewrite Hdata in Hparse. injection Hparse as <-.
    exact (proj1 (Hiff 9) Hsome).
Defined.

(** C4 fails at the sample: 7 is requested, the run succeeds, and the
    result has no metric for 7. *)
Lemma C4_counterexample :
  active_ids_of Sample.idle Sample.ids = Ok [3; 7; 9]
  ∧ ∃ out evs, sendRequest Sample.idle Sample.ids Sample.run_ok = (Ok out, evs)
      ∧ out !! 7 = None.
Proof.
  split; [reflexivity |]. eexists. eexists. split; reflexivity.
Qed.

(** C6 at the sample: the bitmap of [3, 7, 9] over ten clients and the
    list [3, 7, 9] normalize to the same sequence. *)
Lemma C6_witness :
  active_ids_of Sample.idle Sample.bitmap = Ok [3; 7; 9]
  ∧ active_ids_of Sample.idle Sample.ids = Ok [3; 7; 9].
Proof.
  destruct (C6_bitmap_and_list_agree Sample.idle Sample.bitmap)
    as [Hbitmap [_ [_ Hlist]]].
  - reflexivity.
  - split; [exact Hbitmap | exact (Hlist eq_refl)].
Defined.

(** C6 fails with two configured clients and both active: the bitmap
    [1, 1] normalizes to [0, 1], and the explicit list [0, 1], being of
    length two with entries 0 and 1, is read as a bitmap and normalizes to
    [1]. *)
Lemma C6_counterexample :
  active_ids_of Sample.pair [RawId 1; RawId 1] = Ok [0; 1]
  ∧ active_ids_of Sample.pair [RawId 0; RawId 1] = Ok [1].
Proof. split; reflexivity. Qed.

(** C9 at the sample: a bitmap of ten zeros. *)
Lemma C9_witness :
  sendRequest Sample.idle (replicate 10 (RawId 0)) Sample.run_ok = (Ok ∅, [])
  ∧ sendAsyncRequest Sample.idle (replicate 10 (RawId 0)) 1%float
    = (Ok (), Sample.idle, [])
  ∧ readAsyncResponse Sample.idle (Sample.alive 2%float) = (Ok REnd, Sample.idle, []).
Proof.
  destruct (C9_empty_request_spawns_nothing Sample.idle (replicate 10 (RawId 0))
              Sample.run_ok 1%float (Sample.alive 2%float))
    as [Hsync [_ Hasync]].
  - right. split; [reflexivity | repeat constructor].
  - destruct (Hasync eq_refl) as [self' [Hstart [_ [_ [_ [_ Hpoll]]]]]].
    split; [exact Hsync |].
    assert (Hself : self' = Sample.idle) by (inversion Hstart; reflexivity).
    rewrite Hself in Hstart, Hpoll. split; [exact Hstart | exact Hpoll].
Defined.

(** C10 at the sample: a round started at twenty seconds while the
    records of clients 7 and 9 are still queued. *)
Lemma C10_witness :
  _async_queue Sample.draining = [Sample.made_up 7; Sample.made_up 9]
  ∧ ∃ self' evs,
      sendAsyncRequest Sample.draining Sample.ids 20%float = (Ok (), self', evs)
      ∧ _async_ids self' = [3; 7; 9] ∧ _async_queue self' = []
      ∧ _deadline self' = Some 30%float.
Proof.
  split; [reflexivity |].
  destruct (C10_start_while_draining_discards Sample.draining Sample.ids 20%float
              [3; 7; 9])
    as [self' [evs [Hstart [Hids [Hqueue [Hdeadline _]]]]]].
  - reflexivity.
  - vm_compute. discriminate.
  - reflexivity.
  - exists self', evs. split; [exact Hstart |].
    split; [exact Hids |]. split; [exact Hqueue | exact Hdeadline].
Defined.

(** C2 at the sample: a second start while the first round runs. *)
Lemma C2_witness :
  sendAsyncRequest Sample.running Sample.ids 5%float
  = (Raise (RuntimeError "Async request already in progress."), Sample.running, []).
Proof.
  apply (C2_start_refused_while_handle_held Sample.running Sample.ids 5%float).
  eexists. reflexivity.
Defined.

(** C2 fails in the draining state: the session is reachable and not
    idle (two records are queued), yet [sendAsyncRequest] returns normally
    and launches a process. *)
Lemma C2_counterexample :
  reachable Sample.draining
  ∧ ¬ is_idle Sample.draining
  ∧ ∃ self', sendAsyncRequest Sample.draining Sample.ids 20%float
             = (Ok (), self', [EvPopen (_cmd Sample.idle 10 3 1600)]).
Proof.
  split; [exact sample_draining_reachable |]. split.
  - intros [_ Hq]. vm_compute in Hq. discriminate.
  - eexists. reflexivity.
Qed.

(** C3 at the sample. The synchronous run with exit status 1 raises
    with both streams in the message. The asynchronous round whose process
    exits with status 1 is polled without an error: the poll answers the
    record of client 3 as if the run had succeeded. *)
Theorem C3_async_nonzero_exit_not_reported :
  (sendRequest Sample.idle Sample.ids Sample.run_failed).1
  = Raise (RuntimeError ("ns-3 run failed:" ++ nl ++ "STDERR:" ++ nl
                         ++ "assert failed" ++ nl ++ "STDOUT:" ++ nl
                         ++ Sample.output)%string)
  ∧ (readAsyncResponse Sample.running (Sample.exited 1 3%float)).1.1
    = Ok (RDict Sample.reported3)
  ∧ readAsyncResponse Sample.running (Sample.exited 1 3%float)
    = readAsyncResponse Sample.running (Sample.exited 0 3%float).
Proof. repeat split; reflexivity. Qed.

(** ** Further properties *)

Section Further.

Context {loads : JsonLoads}.

(** *** The output parser *)

Lemma head_filter_None {A} (P : A → bool) (l : list A) :
  head (List.filter P l) = None ↔ ∀ x, In x l → P x = false.
Proof.
  induction l as [| a l IH]; cbn.
  - split; [intros _ x [] | reflexivity].
  - destruct (P a) eqn:Ha; cbn.
    + split; [discriminate |]. intros H.
      rewrite (H a (or_introl eq_refl)) in Ha. discriminate.
    + rewrite IH. split.
      * intros H x [<- | Hin]; [exact Ha | exact (H x Hin)].
      * intros H x Hin. apply H. right. exact Hin.
Qed.

Lemma filter_nothing {A} (P : A → bool) (l : list A) :
  (∀ x, In x l → P x = false) → List.filter P l = [].
Proof.
  induction l as [| a l IH]; cbn; intros H; [reflexivity |].
  rewrite (H a (or_introl eq_refl)). apply IH. intros x Hx. apply H. right. exact Hx.
Qed.

Lemma last_json_line_None (out : string) :
  last_json_line out = None
  ↔ Forall (λ l, looks_like_object (strip l) = false) (splitlines out).
Proof.
  unfold last_json_line. rewrite head_filter_None, Forall_forall. split.
  - intros H l Hl. apply H. apply list_elem_of_In, list_elem_of_fmap.
    exists l. split; [reflexivity |].
    apply list_elem_of_In, in_rev. rewrite rev_involutive.
    apply list_elem_of_In. exact Hl.
  - intros H x Hx. apply list_elem_of_In, list_elem_of_fmap in Hx as [l [-> Hl]].
    apply H. apply list_elem_of_In, in_rev, list_elem_of_In. exact Hl.
Qed.

Lemma last_json_line_last (out : string) (pre post : list string) (l : string) :
  splitlines out = pre ++ l :: post
  → looks_like_object (strip l) = true
  → Forall (λ l', looks_like_object (strip l') = false) post
  → last_json_line out = Some (strip l).
Proof.
  intros Hlines Hl Hpost. unfold last_json_line. rewrite Hlines.
  rewrite rev_app_distr. cbn [rev]. rewrite <- app_assoc. cbn [app].
  rewrite fmap_app, List.filter_app. rewrite filter_nothing.
  - cbn. rewrite Hl. reflexivity.
  - intros x Hx. apply list_elem_of_In, list_elem_of_fmap in Hx as [l' [-> Hl']].
    rewrite Forall_forall in Hpost. apply Hpost.
    apply list_elem_of_In, in_rev, list_elem_of_In. exact Hl'.
Qed.

(** X1. The parser reports a missing summary exactly when no line of
    the output, stripped, starts with an opening and ends with a closing
    brace; its only other error is the decoder's, and a [RuntimeError] it
    raises always carries that one message. *)
Theorem X1_no_summary_iff_no_object_line (out : string) :
  (_parse_last_json out
   = Raise (RuntimeError "No JSON summary found in ns-3 output.")
   ↔ Forall (λ l, looks_like_object (strip l) = false) (splitlines out))
  ∧ (∀ e, _parse_last_json out = Raise e
          → e = RuntimeError "No JSON summary found in ns-3 output."
            ∨ e = JSONDecodeError).
Proof.
  rewrite <- last_json_line_None. unfold _parse_last_json.
  destruct (last_json_line out) as [last |].
  - split.
    + split; [| discriminate].
      destruct (json_loads last); discriminate.
    + intros e. destruct (json_loads last); [discriminate |].
      intros H. inversion H. right. reflexivity.
  - split; [tauto |]. intros e H. inversion H. left. reflexivity.
Qed.

(** X2. The parser decodes the last object-looking line: lines before
    it, object-looking or not, and lines after it that are not
    object-looking do not change the answer, and the decoder receives the
    line stripped. *)
Theorem X2_parser_decodes_last_object_line (out : string)
    (pre post : list string) (l : string) :
  splitlines out = pre ++ l :: post
  → looks_like_object (strip l) = true
  → Forall (λ l', looks_like_object (strip l') = false) post
  → _parse_last_json out
    = match json_loads (strip l) with
      | Some data => Ok data
      | None => Raise JSONDecodeError
      end.
Proof.
  intros Hlines Hl Hpost. unfold _parse_last_json.
  rewrite (last_json_line_last out pre post l Hlines Hl Hpost). reflexivity.
Qed.

Lemma append_cons (x : ascii) (a b : string) :
  (String x a ++ b)%string = String x (a ++ b)%string.
Proof. reflexivity. Qed.

Lemma append_nil (b : string) : ("" ++ b)%string = b.
Proof. reflexivity. Qed.

Lemma list_ascii_of_string_app (a b : string) :
  list_ascii_of_string (a ++ b)%string
  = list_ascii_of_string a ++ list_ascii_of_string b.
Proof.
  induction a as [| c a IH]; [reflexivity |].
  rewrite append_cons. cbn [list_ascii_of_string app]. rewrite IH. reflexivity.
Qed.

Lemma string_app_assoc (a b c : string) :
  ((a ++ b) ++ c = a ++ (b ++ c))%string.
Proof.
  induction a as [| x a IH]; [reflexivity |].
  rewrite !append_cons, IH. reflexivity.
Qed.

Lemma string_app_empty_r (a : string) : (a ++ "" = a)%string.
Proof.
  induction a as [| x a IH]; [reflexivity |]. rewrite append_cons, IH. reflexivity.
Qed.

Lemma not_linebreak_not_cr (c : ascii) :
  is_linebreak c = false → bool_decide (nat_of_ascii c = 13%nat) = false.
Proof.
  intros H. apply bool_decide_eq_false_2. intros Hc.
  unfold is_linebreak in H. rewrite Hc in H. discriminate.
Qed.

(** Reading on through a stretch without line boundaries only extends
    the current line. *)
Lemma splitlines_from_one_line (l cur s : string) :
  one_line l = true
  → splitlines_from cur (l ++ s)%string = splitlines_from (cur ++ l)%string s.
Proof.
  revert cur. induction l as [| c l IH]; intros cur Hl.
  - rewrite string_app_empty_r. reflexivity.
  - unfold one_line in Hl. cbn in Hl. apply andb_prop in Hl as [Hc Hl].
    apply negb_true_iff in Hc.
    rewrite append_cons. cbn [splitlines_from].
    rewrite (not_linebreak_not_cr c Hc), Hc.
    rewrite (IH (cur ++ String c "")%string Hl).
    rewrite string_app_assoc. reflexivity.
Qed.

(** Splitting undoes joining: text made of lines that each end with a
    newline splits into those lines. *)
Lemma splitlines_unlines (lines : list string) :
  Forall (λ l, one_line l = true) lines → splitlines (unlines lines) = lines.
Proof.
  unfold splitlines. induction 1 as [| l lines Hl _ IH]; [reflexivity |].
  cbn [unlines foldr]. rewrite (splitlines_from_one_line l "" _ Hl).
  rewrite append_nil. unfold nl. rewrite append_cons, append_nil.
  cbn [splitlines_from].
  rewrite bool_decide_eq_false_2 by (vm_compute; discriminate).
  replace (is_linebreak (ascii_of_nat 10)) with true by reflexivity.
  f_equal. exact IH.
Qed.

Lemma lstrip_blank_prefix (pad cs : list ascii) (c : ascii) :
  forallb is_space pad = true → is_space c = false
  → lstrip_chars (pad ++ c :: cs) = c :: cs.
Proof.
  intros Hpad Hc. induction pad as [| x pad IH]; cbn.
  - rewrite Hc. reflexivity.
  - cbn in Hpad. apply andb_prop in Hpad as [Hx Hpad]. rewrite Hx. exact (IH Hpad).
Qed.

(** Stripping removes blank padding around a brace-delimited line. *)
Lemma strip_padded_object (pad1 pad2 s : string) :
  blank pad1 = true → blank pad2 = true → looks_like_object s = true
  → strip (pad1 ++ s ++ pad2)%string = s.
Proof.
  intros H1 H2 Hobj. unfold looks_like_object in Hobj.
  apply andb_prop in Hobj as [Hstart Hend].
  unfold strip. rewrite !list_ascii_of_string_app.
  destruct s as [| c s]; [discriminate |].
  cbn in Hstart. apply bool_decide_eq_true_1 in Hstart. subst c.
  unfold endswith_char in Hend.
  destruct (rev (list_ascii_of_string (String "{" s))) as [| c' r] eqn:Hrev;
    [discriminate |].
  apply bool_decide_eq_true_1 in Hend. subst c'.
  cbn [list_ascii_of_string app].
  rewrite (lstrip_blank_prefix _ _ "{"%char H1 eq_refl).
  change ("{"%char :: list_ascii_of_string s ++ list_ascii_of_string pad2)
    with (list_ascii_of_string (String "{" s) ++ list_ascii_of_string pad2).
  rewrite rev_app_distr, Hrev.
  rewrite (lstrip_blank_prefix _ _ "}"%char).
  - rewrite <- Hrev, rev_involutive. apply string_of_list_ascii_of_string.
  - unfold blank in H2. rewrite forallb_forall in *. intros x Hx.
    apply H2. apply in_rev. exact Hx.
  - reflexivity.
Qed.

(** X3. Noisy output. When the captured output consists of lines ended
    by newlines, one of them an object-looking summary with blanks around
    it, and no later line is object-looking, the parser decodes exactly the
    summary, whatever the earlier lines are. *)
Theorem X3_parser_finds_padded_summary (pre post : list string)
    (pad1 pad2 summary : string) :
  Forall (λ l, one_line l = true) (pre ++ (pad1 ++ summary ++ pad2)%string :: post)
  → blank pad1 = true → blank pad2 = true
  → looks_like_object summary = true
  → Forall (λ l, looks_like_object (strip l) = false) post
  → _parse_last_json (unlines (pre ++ (pad1 ++ summary ++ pad2)%string :: post))
    = match json_loads summary with
      | Some data => Ok data
      | None => Raise JSONDecodeError
      end.
Proof.
  intros Hlines H1 H2 Hobj Hpost. unfold _parse_last_json.
  rewrite (last_json_line_last _ pre post (pad1 ++ summary ++ pad2)%string).
  - rewrite (strip_padded_object pad1 pad2 summary H1 H2 Hobj). reflexivity.
  - apply splitlines_unlines. exact Hlines.
  - rewrite (strip_padded_object pad1 pad2 summary H1 H2 Hobj). exact Hobj.
  - exact Hpost.
Qed.

(** *** What a poll can raise, and what it leaves behind *)



(** The five ways a poll can go, each with its outcome. *)
Lemma poll_cases (self : Network) (env : PollEnv) :
  (_proc self = None
   ∧ readAsyncResponse self env
     = (served (_async_queue self),
        set_async_queue (tail (_async_queue self)) self, []))
  ∨ (∃ p, _proc self = Some p ∧ env_poll env = None
       ∧ deadline_passed self env = false
       ∧ readAsyncResponse self env = (Ok (RDict ∅), self, []))
  ∨ (∃ p, _proc self = Some p ∧ env_poll env = None
       ∧ deadline_passed self env = true
       ∧ readAsyncResponse self env
         = (served (_async_queue self
                    ++ timeout_records self (timeout_data (escalate env).1)),
            set_async_queue
              (tail (_async_queue self
                     ++ timeout_records self (timeout_data (escalate env).1)))
              (set_proc None self),
            (escalate env).2))
  ∨ (∃ p rc data, _proc self = Some p ∧ env_poll env = Some rc
       ∧ _parse_last_json (env_comm env).1 = Ok data
       ∧ readAsyncResponse self env
         = (served (_async_queue self ++ reported_records self data),
            set_async_queue (tail (_async_queue self ++ reported_records self data))
                            (set_proc None self),
            []))
  ∨ (∃ p rc e, _proc self = Some p ∧ env_poll env = Some rc
       ∧ _parse_last_json (env_comm env).1 = Raise e
       ∧ readAsyncResponse self env = (Raise e, set_proc None self, [])).
Proof.
  destruct (_proc self) as [p |] eqn:Hp.
  - destruct (env_poll env) as [rc |] eqn:Hpoll.
    + destruct (_parse_last_json (env_comm env).1) as [data | e] eqn:Hparse.
      * do 3 right. left. exists p, rc, data. repeat split; try reflexivity.
        exact (poll_finished self env p rc data Hp Hpoll Hparse).
      * do 4 right. exists p, rc, e. repeat split; try reflexivity.
        exact (poll_finished_raise self env p rc e Hp Hpoll Hparse).
    + destruct (deadline_passed self env) eqn:Hdl.
      * do 2 right. left. exists p. repeat split; try reflexivity.
        exact (poll_timeout self env p Hp Hpoll Hdl).
      * right. left. exists p. repeat split; try reflexivity.
        exact (poll_in_progress self env p Hp Hpoll Hdl).
  - left. split; [reflexivity |]. exact (poll_draining self env Hp).
Qed.


Lemma poll_idle_stays (self : Network) (env : PollEnv) :
  is_idle self → readAsyncResponse self env = (Ok REnd, self, []).
Proof.
  intros [Hp Hq]. unfold readAsyncResponse.
  rewrite !bool_decide_eq_true_2 by assumption. reflexivity.
Qed.

Lemma polls_idle_stay (self : Network) (envs : list PollEnv) :
  is_idle self
  → poll_seq self envs = replicate (length envs) (Ok REnd)
    ∧ poll_state self envs = self.
Proof.
  intros Hidle. induction envs as [| env envs [IH1 IH2]]; [split; reflexivity |].
  cbn [poll_seq poll_state length replicate].
  rewrite (poll_idle_stays self env Hidle). cbn [fst snd].
  rewrite IH1, IH2. split; reflexivity.
Qed.

(** X5. A normal exit without a usable summary costs the round: the
    poll raises the parser's error, and the session is left idle, with the
    handle released and nothing queued, so that every later poll answers the
    end sentinel. *)
Theorem X5_failed_round_leaves_idle (self : Network) (p : Popen) (rc : Z)
    (env : PollEnv) (e : exn) :
  reachable self → _proc self = Some p → env_poll env = Some rc
  → _parse_last_json (env_comm env).1 = Raise e
  → readAsyncResponse self env = (Raise e, set_proc None self, [])
    ∧ is_idle (set_proc None self)
    ∧ ∀ envs, poll_seq (set_proc None self) envs
              = replicate (length envs) (Ok REnd).
Proof.
  intros Hreach Hp Hpoll Hparse.
  destruct (reachable_handle_inv self Hreach) as [Hq _]; [congruence |].
  assert (Hidle : is_idle (set_proc None self)) by (split; [reflexivity | exact Hq]).
  split; [exact (poll_finished_raise self env p rc e Hp Hpoll Hparse) |].
  split; [exact Hidle |].
  intros envs. exact (proj1 (polls_idle_stay _ envs Hidle)).
Qed.

(** X6. The end sentinel means the session is over. Whenever a poll
    answers ['end'], it touched no process, the session is idle afterwards,
    and further polls keep answering ['end'] without changing anything. On
    the timeout path the first answer is therefore never ['end']. *)
Theorem X6_end_means_idle (self : Network) (env : PollEnv) :
  reachable self → (readAsyncResponse self env).1.1 = Ok REnd
  → is_idle (readAsyncResponse self env).1.2
    ∧ (readAsyncResponse self env).2 = []
    ∧ ∀ envs,
        poll_seq (readAsyncResponse self env).1.2 envs
        = replicate (length envs) (Ok REnd)
        ∧ poll_state (readAsyncResponse self env).1.2 envs
          = (readAsyncResponse self env).1.2.
Proof.
  intros Hreach Hend.
  pose proof (reachable_handle_inv self Hreach) as Hinv.
  assert (Hidle : is_idle (readAsyncResponse self env).1.2
                  ∧ (readAsyncResponse self env).2 = []).
  { destruct (poll_cases self env)
      as [[Hp H] | [[p [_ [_ [_ H]]]] | [[p [Hp [_ [_ H]]]]
          | [[p [rc [data [Hp [_ [_ H]]]]]] | [p [rc [e' [_ [_ [_ H]]]]]]]]]];
      rewrite H in Hend |- *; cbn [fst snd] in Hend |- *.
    - destruct (_async_queue self) eqn:Hq; [| discriminate].
      split; [split; [exact Hp | reflexivity] | reflexivity].
    - discriminate.
    - exfalso. destruct Hinv as [Hq Hids]; [congruence |]. rewrite Hq in Hend.
      pose proof (timeout_records_length self (timeout_data (escalate env).1)) as Hlen.
      destruct (timeout_records self (timeout_data (escalate env).1));
        [| discriminate].
      destruct (_async_ids self); [contradiction | discriminate].
    - destruct Hinv as [Hq _]; [congruence |]. rewrite Hq in Hend |- *.
      cbn [app] in Hend |- *.
      destruct (reported_records self data); [| discriminate].
      split; [split; reflexivity | reflexivity].
    - discriminate. }
  destruct Hidle as [Hidle Hevs]. split; [exact Hidle |]. split; [exact Hevs |].
  intros envs. exact (polls_idle_stay _ envs Hidle).
Qed.

(** X9. What a poll does to the process. It never launches one. It
    asks the process to terminate exactly when the process is still alive
    past the deadline, and it kills the process exactly when, besides, the
    two-second wait after that request times out. *)
Theorem X9_termination_only_past_deadline (self : Network) (env : PollEnv) :
  ((readAsyncResponse self env).2 = []
   ∨ (readAsyncResponse self env).2 = [EvTerminate]
   ∨ (readAsyncResponse self env).2 = [EvTerminate; EvKill])
  ∧ (EvTerminate ∈ (readAsyncResponse self env).2
     ↔ is_Some (_proc self) ∧ env_poll env = None
       ∧ deadline_passed self env = true)
  ∧ (EvKill ∈ (readAsyncResponse self env).2
     ↔ is_Some (_proc self) ∧ env_poll env = None
       ∧ deadline_passed self env = true
       ∧ env_comm_timeout env = TimeoutExpired).
Proof.
  destruct (poll_cases self env)
    as [[Hp H] | [[p [Hp [Hpoll [Hdl H]]]] | [[p [Hp [Hpoll [Hdl H]]]]
        | [[p [rc [data [Hp [Hpoll [_ H]]]]]] | [p [rc [e' [Hp [Hpoll [_ H]]]]]]]]]];
    rewrite H; cbn [fst snd]; rewrite ?Hp, ?Hpoll, ?Hdl.
  - split; [left; reflexivity |].
    split; (split; [intros Hin; inversion Hin | intros [[x Hx] _]; discriminate]).
  - split; [left; reflexivity |].
    split; (split; [intros Hin; inversion Hin
                   | intros Hc; decompose [and] Hc; discriminate]).
  - unfold escalate. destruct (env_comm_timeout env) as [out err |]; cbn [fst snd].
    + split; [right; left; reflexivity |]. split.
      * split; [intros _; repeat split; eauto | intros _; left].
      * split; [intros Hin | intros [_ [_ [_ Hc]]]; discriminate].
        apply elem_of_cons in Hin as [Hc | Hin]; [discriminate | inversion Hin].
    + split; [right; right; reflexivity |]. split.
      * split; [intros _; repeat split; eauto | intros _; left].
      * split; [intros _; repeat split; eauto | intros _; right; left].
  - split; [left; reflexivity |].
    split; (split; [intros Hin; inversion Hin | intros [_ [Hc _]]; discriminate]).
  - split; [left; reflexivity |].
    split; (split; [intros Hin; inversion Hin | intros [_ [Hc _]]; discriminate]).
Qed.

(** *** Invariants of the session *)

Lemma enumerate_elem (ids : list Z) (p : Z * Z) :
  p ∈ enumerate ids ↔ ∃ i : nat, p.1 = Z.of_nat i ∧ ids !! i = Some p.2.
Proof.
  unfold enumerate. rewrite elem_of_lookup_imap. split.
  - intros [i [k [-> Hk]]]. exists i. split; [reflexivity | exact Hk].
  - intros [i [H1 H2]]. exists i, p.2. split; [| exact H2].
    destruct p as [a b]; cbn in *. subst a. reflexivity.
Qed.

Lemma timeout_records_are_records (self : Network) (data : Summary) :
  Forall (is_client_record (_async_ids self)) (timeout_records self data).
Proof.
  apply Forall_forall. intros r Hr. unfold timeout_records in Hr.
  apply list_elem_of_fmap in Hr as [p [-> Hp]].
  apply enumerate_elem in Hp as [i [_ Hi]].
  eexists _, _. split; [reflexivity |]. split.
  - eapply list_elem_of_lookup_2. exact Hi.
  - destruct (results_of data !! p.1); reflexivity.
Qed.

Lemma reported_records_are_records (self : Network) (data : Summary) :
  Forall (is_client_record (_async_ids self)) (reported_records self data).
Proof.
  apply Forall_forall. intros r Hr. unfold reported_records in Hr.
  apply list_elem_of_omap in Hr as [p [Hp Hr]].
  apply enumerate_elem in Hp as [i [_ Hi]].
  destruct (results_of data !! p.1) as [e |]; cbn in Hr; [| discriminate].
  inversion Hr. eexists _, _. split; [reflexivity |]. split.
  - eapply list_elem_of_lookup_2. exact Hi.
  - reflexivity.
Qed.

Lemma Forall_tail {A} (P : A → Prop) (l : list A) : Forall P l → Forall P (tail l).
Proof. intros H. destruct H; [constructor | assumption]. Qed.

Lemma start_queue_records (self : Network) (array : list client_arg) (now : float) :
  Forall (is_client_record (_async_ids self)) (_async_queue self)
  → Forall (is_client_record (_async_ids (sendAsyncRequest self array now).1.2))
           (_async_queue (sendAsyncRequest self array now).1.2).
Proof.
  intros Hinv. unfold sendAsyncRequest.
  destruct (_proc self); [exact Hinv |].
  destruct (active_ids_of self array) as [[| id ids] | e]; cbn;
    [constructor | constructor | exact Hinv].
Qed.

Lemma poll_queue_records (self : Network) (env : PollEnv) :
  Forall (is_client_record (_async_ids self)) (_async_queue self)
  → _async_ids (readAsyncResponse self env).1.2 = _async_ids self
    ∧ Forall (is_client_record (_async_ids self))
             (_async_queue (readAsyncResponse self env).1.2).
Proof.
  intros Hinv.
  destruct (poll_cases self env)
    as [[_ H] | [[p [_ [_ [_ H]]]] | [[p [_ [_ [_ H]]]]
        | [[p [rc [data [_ [_ [_ H]]]]]] | [p [rc [e' [_ [_ [_ H]]]]]]]]]];
    rewrite H; cbn [fst snd _async_ids _async_queue set_async_queue set_proc];
    (split; [reflexivity |]).
  - apply Forall_tail. exact Hinv.
  - exact Hinv.
  - apply Forall_tail, Forall_app. split; [exact Hinv |].
    apply timeout_records_are_records.
  - apply Forall_tail, Forall_app. split; [exact Hinv |].
    apply reported_records_are_records.
  - exact Hinv.
Qed.

Lemma reachable_queue_records (self : Network) :
  reachable self → Forall (is_client_record (_async_ids self)) (_async_queue self).
Proof.
  induction 1 as [total thz ms build self Hnew | self array now _ IH | self env _ IH].
  - unfold new_Network in Hnew. case_bool_decide; [discriminate |].
    inversion Hnew; subst. constructor.
  - apply start_queue_records. exact IH.
  - destruct (poll_queue_records self env IH) as [Hids Hq]. rewrite Hids. exact Hq.
Qed.

(** X7. Every record a session holds or hands out belongs to its round.
    In every reachable state each queued element is a one-key map whose key
    is one of the round's active ids and whose [startTime] is zero; and a
    dict a poll answers is either the empty in-progress marker or such a
    record. *)
Theorem X7_records_belong_to_round (self : Network) (env : PollEnv)
    (d : gmap Z AsyncMetric) :
  reachable self
  → Forall (is_client_record (_async_ids self)) (_async_queue self)
    ∧ ((readAsyncResponse self env).1.1 = Ok (RDict d)
       → d = ∅ ∨ is_client_record (_async_ids self) d).
Proof.
  intros Hreach. pose proof (reachable_queue_records self Hreach) as Hinv.
  split; [exact Hinv |]. intros Hd.
  assert (Hserved : ∀ q, Forall (is_client_record (_async_ids self)) q
                         → served q = Ok (RDict d)
                         → is_client_record (_async_ids self) d).
  { intros q Hq Hs. destruct Hq as [| r q Hr _]; [discriminate |].
    inversion Hs; subst. exact Hr. }
  destruct (poll_cases self env)
    as [[_ H] | [[p [_ [_ [_ H]]]] | [[p [_ [_ [_ H]]]]
        | [[p [rc [data [_ [_ [_ H]]]]]] | [p [rc [e' [_ [_ [_ H]]]]]]]]]];
    rewrite H in Hd; cbn [fst snd] in Hd.
  - right. exact (Hserved _ Hinv Hd).
  - left. inversion Hd. reflexivity.
  - right. refine (Hserved _ _ Hd). apply Forall_app. split; [exact Hinv |].
    apply timeout_records_are_records.
  - right. refine (Hserved _ _ Hd). apply Forall_app. split; [exact Hinv |].
    apply reported_records_are_records.
  - discriminate.
Qed.

Lemma start_launch_inv (self : Network) (array : list client_arg) (now : float) :
  (∀ p, _proc self = Some p
        → is_Some (_deadline self)
          ∧ popen_args p = _cmd self (num_clients self)
                                (Z.of_nat (length (_async_ids self)))
                                (_model_bytes self))
  → ∀ p, _proc (sendAsyncRequest self array now).1.2 = Some p
         → is_Some (_deadline (sendAsyncRequest self array now).1.2)
           ∧ popen_args p
             = _cmd (sendAsyncRequest self array now).1.2
                    (num_clients (sendAsyncRequest self array now).1.2)
                    (Z.of_nat (length (_async_ids (sendAsyncRequest self array now).1.2)))
                    (_model_bytes (sendAsyncRequest self array now).1.2).
Proof.
  intros Hinv. unfold sendAsyncRequest.
  destruct (_proc self) as [p0 |] eqn:Hp0.
  - cbn [fst snd]. intros p Hp. apply Hinv. congruence.
  - destruct (active_ids_of self array) as [[| id ids] | e]; cbn [fst snd].
    + intros p Hp. cbn in Hp. discriminate.
    + intros p Hp. cbn in Hp. inversion Hp; subst p. cbn. split; [eauto | reflexivity].
    + intros p Hp. congruence.
Qed.

(** X8. What holds while a process is held. In every reachable state
    with a process handle, a deadline is set (so the timeout guard is always
    armed), nothing is queued, the round has at least one client, and the
    process was launched with the command line of the current
    configuration and with [--clients] equal to the number of active ids. *)
Theorem X8_held_process_has_deadline_and_command (self : Network) (p : Popen) :
  reachable self → _proc self = Some p
  → is_Some (_deadline self)
    ∧ _async_queue self = []
    ∧ _async_ids self ≠ []
    ∧ popen_args p = _cmd self (num_clients self)
                          (Z.of_nat (length (_async_ids self)))
                          (_model_bytes self)
    ∧ FlagInt "clients" (Z.of_nat (length (_async_ids self))) ∈ popen_args p.
Proof.
  intros Hreach Hp.
  assert (Hlaunch : ∀ p, _proc self = Some p
            → is_Some (_deadline self)
              ∧ popen_args p = _cmd self (num_clients self)
                                    (Z.of_nat (length (_async_ids self)))
                                    (_model_bytes self)).
  { clear p Hp.
    induction Hreach as [total thz ms build self Hnew | self array now _ IH
                        | self env _ IH].
    - unfold new_Network in Hnew. case_bool_decide; [discriminate |].
      inversion Hnew; subst. intros p Hp. cbn in Hp. discriminate.
    - apply start_launch_inv. exact IH.
    - destruct (poll_releases_or_waits self env) as [Hnone | Hsame].
      + intros p Hp. congruence.
      + rewrite Hsame. exact IH. }
  destruct (Hlaunch p Hp) as [Hdl Hcmd].
  destruct (reachable_handle_inv self Hreach) as [Hq Hids]; [congruence |].
  split; [exact Hdl |]. split; [exact Hq |]. split; [exact Hids |].
  split; [exact Hcmd |]. rewrite Hcmd. unfold _cmd.
  do 5 right. left.
Qed.

(** *** The synchronous loop, entry by entry *)

Lemma sync_loop_closed (self : Network) (id_map : gmap Z Z) (es : list Entry)
    (acc : gmap Z SyncMetric) :
  fold_result (sync_body self id_map) es acc
  = Ok (foldl (sync_put self id_map) acc es).
Proof.
  revert acc. induction es as [| e es IH]; intros acc; [reflexivity |].
  cbn [fold_result foldl]. rewrite sync_body_eq. cbn [Py.bind]. apply IH.
Qed.

Lemma sync_put_untouched (self : Network) (id_map : gmap Z Z) (es : list Entry)
    (acc : gmap Z SyncMetric) (k : Z) :
  Forall (λ e, id_map !! local_of e ≠ Some k) es
  → foldl (sync_put self id_map) acc es !! k = acc !! k.
Proof.
  intros H. revert acc. induction H as [| e es He _ IH]; intros acc; [reflexivity |].
  cbn [foldl]. rewrite IH. unfold sync_put.
  destruct (id_map !! local_of e) as [real |]; [| reflexivity].
  apply lookup_insert_ne. congruence.
Qed.

(** What [sendRequest] returns when the run succeeds and its output
    parses. *)
Lemma sendRequest_parsed (self : Network) (array : list client_arg)
    (run : CompletedProcess) (ids : list Z) (data : Summary) :
  active_ids_of self array = Ok ids → ids ≠ [] → returncode run = 0
  → _parse_last_json (stdout run) = Ok data
  → (sendRequest self array run).1
    = Ok (foldl (sync_put self (id_map_of ids)) ∅ (get_clientResults data)).
Proof.
  intros Hids Hne Hrc Hparse.
  rewrite (sendRequest_nonempty self array run ids Hids Hne). cbn [fst].
  rewrite bool_decide_eq_false_2 by (intros Hc; contradiction).
  rewrite Hparse. cbn [mbind result_mbind Py.bind]. apply sync_loop_closed.
Qed.

(** X10. When the summary reports a client more than once, the
    synchronous result carries the metric of the last report. *)
Theorem X10_sync_last_report_wins (self : Network) (array : list client_arg)
    (run : CompletedProcess) (ids : list Z) (data : Summary)
    (es1 es2 : list Entry) (e : Entry) (i : nat) (k : Z) :
  active_ids_of self array = Ok ids → returncode run = 0
  → _parse_last_json (stdout run) = Ok data
  → get_clientResults data = es1 ++ e :: es2
  → local_of e = Z.of_nat i → ids !! i = Some k
  → Forall (λ e', ∀ j : nat, local_of e' = Z.of_nat j → ids !! j ≠ Some k) es2
  → ∃ out, (sendRequest self array run).1 = Ok out
      ∧ out !! k = Some (sync_metric_of self e).
Proof.
  intros Hids Hrc Hparse Hes Hlocal Hi Hlater.
  assert (Hne : ids ≠ []) by (intros ->; discriminate).
  rewrite (sendRequest_parsed self array run ids data Hids Hne Hrc Hparse).
  eexists. split; [reflexivity |].
  rewrite Hes, foldl_app. cbn [foldl]. rewrite sync_put_untouched.
  - unfold sync_put at 1. rewrite Hlocal, id_map_of_nat, Hi.
    apply lookup_insert_eq.
  - eapply Forall_impl; [exact Hlater |]. intros e' He' Hc.
    apply id_map_of_lookup in Hc as [H0 Hc].
    apply (He' (Z.to_nat (local_of e'))); [lia | exact Hc].
Qed.


(** *** The two runners on the same output *)

(** With distinct active ids, the synchronous loop and the results
    dictionary of the asynchronous path stay in step: under each active id
    the loop holds the metric of the entry the dictionary holds under its
    local index. *)
Lemma sync_results_in_step (self : Network) (ids : list Z) (es : list Entry)
    (acc : gmap Z SyncMetric) (m : gmap Z Entry) :
  NoDup ids
  → (∀ (i : nat) k, ids !! i = Some k
       → acc !! k = sync_metric_of self <$> m !! Z.of_nat i)
  → (∀ k, k ∉ ids → acc !! k = None)
  → (∀ (i : nat) k, ids !! i = Some k
       → foldl (sync_put self (id_map_of ids)) acc es !! k
         = sync_metric_of self
           <$> foldl (λ m e, <[local_of e := e]> m) m es !! Z.of_nat i)
    ∧ (∀ k, k ∉ ids → foldl (sync_put self (id_map_of ids)) acc es !! k = None).
Proof.
  intros Hnd. revert acc m. induction es as [| e es IH]; intros acc m Hin Hout.
  - split; assumption.
  - cbn [foldl]. apply IH.
    + intros i k Hi. unfold sync_put.
      destruct (id_map_of ids !! local_of e) as [real |] eqn:Hid.
      * apply id_map_of_lookup in Hid as [H0 Hreal].
        destruct (decide (k = real)) as [-> | Hne].
        -- assert (i = Z.to_nat (local_of e))
             by (eapply NoDup_lookup; eassumption).
           subst i. rewrite Z2Nat.id by exact H0.
           rewrite !lookup_insert_eq. reflexivity.
        -- rewrite lookup_insert_ne by congruence.
           rewrite lookup_insert_ne; [exact (Hin i k Hi) |].
           intros Hc. rewrite Hc, Nat2Z.id in Hreal. congruence.
      * rewrite lookup_insert_ne; [exact (Hin i k Hi) |].
        intros Hc. rewrite Hc, id_map_of_nat in Hid. congruence.
    + intros k Hk. unfold sync_put.
      destruct (id_map_of ids !! local_of e) as [real |] eqn:Hid;
        [| exact (Hout k Hk)].
      apply id_map_of_lookup in Hid as [_ Hreal].
      rewrite lookup_insert_ne; [exact (Hout k Hk) |].
      intros ->. apply Hk. eapply list_elem_of_lookup_2. exact Hreal.
Qed.

Lemma reported_records_elem (self : Network) (data : Summary)
    (r : gmap Z AsyncMetric) :
  r ∈ reported_records self data
  ↔ ∃ (i : nat) k e, _async_ids self !! i = Some k
      ∧ results_of data !! Z.of_nat i = Some e
      ∧ r = {[ k := metric_of self e ]}.
Proof.
  unfold reported_records. rewrite list_elem_of_omap. split.
  - intros [[a k] [Hp Hr]]. apply enumerate_elem in Hp as [i [Ha Hi]].
    cbn in Ha, Hi, Hr. subst a.
    destruct (results_of data !! Z.of_nat i) as [e |] eqn:He; [| discriminate].
    inversion Hr. exists i, k, e. tauto.
  - intros [i [k [e [Hi [He ->]]]]]. exists (Z.of_nat i, k). split.
    + apply enumerate_elem. exists i. split; [reflexivity | exact Hi].
    + cbn. rewrite He. reflexivity.
Qed.

Lemma singleton_record_inj (k k' : Z) (m m' : AsyncMetric) :
  ({[ k := m ]} : gmap Z AsyncMetric) = {[ k' := m' ]} → k = k' ∧ m = m'.
Proof.
  intros Heq.
  assert (H : ({[ k' := m' ]} : gmap Z AsyncMetric) !! k = Some m)
    by (rewrite <- Heq; apply lookup_singleton_eq).
  apply lookup_singleton_Some in H as [-> ->]. tauto.
Qed.

(** X11. The two runners agree. Let the same array, with distinct
    active ids, be given to [sendRequest] and to [sendAsyncRequest], and let
    the asynchronous process exit by itself with the output the synchronous
    run captured. Then the polls deliver, one per poll and followed by the
    end sentinel, exactly the entries of the synchronous result: each
    client's [endTime] is its [roundTime], with the same throughput. *)
Theorem X11_async_delivers_the_sync_result (self : Network)
    (array : list client_arg) (run : CompletedProcess) (now : float)
    (env : PollEnv) (envs : list PollEnv) (rc : Z) (ids : list Z)
    (out : gmap Z SyncMetric) (evs : list event) :
  _proc self = None → active_ids_of self array = Ok ids → NoDup ids
  → sendRequest self array run = (Ok out, evs)
  → env_poll env = Some rc → (env_comm env).1 = stdout run
  → ∃ recs : list (gmap Z AsyncMetric),
      poll_seq (sendAsyncRequest self array now).1.2 (env :: envs)
      = drained recs (S (length envs))
      ∧ ∀ k sm, out !! k = Some sm ↔ as_record k sm ∈ recs.
Proof.
  intros Hp Hids Hnd Hsend Hpoll Hout.
  destruct (decide (ids = [])) as [-> | Hne].
  - exists []. split.
    + unfold sendAsyncRequest. rewrite Hp, Hids. cbn [fst snd].
      rewrite poll_seq_draining by reflexivity. reflexivity.
    + unfold sendRequest in Hsend. rewrite Hids in Hsend. inversion Hsend; subst.
      intros k sm. rewrite lookup_empty. split; [discriminate |].
      intros Hin. inversion Hin.
  - rewrite (sendRequest_nonempty self array run ids Hids Hne) in Hsend.
    case_bool_decide as Hrc; [inversion Hsend |].
    destruct (_parse_last_json (stdout run)) as [data | e] eqn:Hparse;
      [| inversion Hsend].
    cbn [mbind result_mbind Py.bind] in Hsend. rewrite sync_loop_closed in Hsend.
    inversion Hsend as [[Hout_eq Hevs]]. clear Hsend.
    set (self1 := (sendAsyncRequest self array now).1.2).
    assert (Hself1 : ∃ p, _proc self1 = Some p ∧ _async_queue self1 = []
                          ∧ _async_ids self1 = ids
                          ∧ _thz_cfg self1 = _thz_cfg self).
    { subst self1. unfold sendAsyncRequest. rewrite Hp, Hids.
      destruct ids as [| id ids']; [contradiction |]. cbn.
      eexists. repeat split; reflexivity. }
    destruct Hself1 as [p [Hp1 [Hq1 [Hids1 Hcfg1]]]].
    exists (reported_records self1 data). split.
    + cbn [poll_seq]. rewrite <- Hout in Hparse.
      pose proof (poll_finished self1 env p rc data Hp1 Hpoll Hparse) as H.
      rewrite Hq1 in H. cbn [app] in H. rewrite H.
      rewrite poll_seq_draining by reflexivity. rewrite drained_step. reflexivity.
    + destruct (sync_results_in_step self ids (get_clientResults data) ∅ ∅ Hnd)
        as [Hin Hnotin].
      { intros i k _. rewrite !lookup_empty. reflexivity. }
      { intros k _. apply lookup_empty. }
      fold (results_of data) in Hin.
      intros k sm. rewrite reported_records_elem, Hids1. split.
      * intros Hk. destruct (decide (k ∈ ids)) as [Hkin | Hkout].
        -- apply list_elem_of_lookup_1 in Hkin as [i Hi].
           rewrite (Hin i k Hi) in Hk.
           destruct (results_of data !! Z.of_nat i) as [e |] eqn:He;
             [| discriminate].
           inversion Hk; subst sm. exists i, k, e.
           split; [exact Hi |]. split; [exact He |].
           unfold as_record, metric_of, sync_metric_of. rewrite Hcfg1. reflexivity.
        -- rewrite (Hnotin k Hkout) in Hk. discriminate.
      * intros [i [k' [e [Hi [He Hrec]]]]].
        apply singleton_record_inj in Hrec as [-> Hm].
        rewrite (Hin i k' Hi), He. cbn. f_equal.
        unfold metric_of in Hm. rewrite Hcfg1 in Hm. inversion Hm as [[Ht Hthr]].
        destruct sm as [t thr]. unfold sync_metric_of. cbn in *. congruence.
Qed.

(** *** The array argument *)

Lemma map_int_of_Ok (clients : list client_arg) (ids : list Z) :
  map_result int_of clients = Ok ids ↔ clients = RawId <$> ids.
Proof.
  revert ids. induction clients as [| c clients IH]; intros ids; cbn.
  - split.
    + intros H. inversion H. reflexivity.
    + intros H. destruct ids; [reflexivity | discriminate].
  - destruct c as [z | i]; cbn.
    + destruct (map_result int_of clients) as [ids' |] eqn:Hrest; cbn.
      * split.
        -- intros H. inversion H; subst. cbn. f_equal. apply IH. reflexivity.
        -- intros H. destruct ids as [| z' ids'']; [discriminate |].
           inversion H; subst. f_equal. f_equal.
           assert (Hok : Ok ids' = Ok ids'') by (apply IH; reflexivity).
           inversion Hok. reflexivity.
      * split; [discriminate |]. intros H.
        destruct ids as [| z' ids'']; [discriminate |]. inversion H; subst.
        assert (Hok : @Raise (list Z) e = Ok ids'') by (apply IH; reflexivity).
        discriminate.
    + split; [discriminate |]. intros H. destruct ids; discriminate.
Qed.

Lemma map_client_id_of_Ok (clients : list client_arg) (ids : list Z) :
  map_result client_id_of clients = Ok ids ↔ clients = ClientObj <$> ids.
Proof.
  revert ids. induction clients as [| c clients IH]; intros ids; cbn.
  - split.
    + intros H. inversion H. reflexivity.
    + intros H. destruct ids; [reflexivity | discriminate].
  - destruct c as [z | i]; cbn.
    + split; [discriminate |]. intros H. destruct ids; discriminate.
    + destruct (map_result client_id_of clients) as [ids' |] eqn:Hrest; cbn.
      * split.
        -- intros H. inversion H; subst. cbn. f_equal. apply IH. reflexivity.
        -- intros H. destruct ids as [| z' ids'']; [discriminate |].
           inversion H; subst. f_equal. f_equal.
           assert (Hok : Ok ids' = Ok ids'') by (apply IH; reflexivity).
           inversion Hok. reflexivity.
      * split; [discriminate |]. intros H.
        destruct ids as [| z' ids'']; [discriminate |]. inversion H; subst.
        assert (Hok : @Raise (list Z) e = Ok ids'') by (apply IH; reflexivity).
        discriminate.
Qed.

(** X12. [parse_clients] succeeds exactly on homogeneous lists: a list
    of integers, returned as it is, or a list of client objects, returned as
    their ids in order. On a mixed list it raises, by the kind of the first
    element: [AttributeError] when that is a client object, [TypeError]
    when it is an integer. *)
Theorem X12_parse_clients_homogeneous (clients : list client_arg) :
  (∀ ids, parse_clients clients = Ok ids
          ↔ clients = RawId <$> ids ∨ clients = ClientObj <$> ids)
  ∧ (∀ e, parse_clients clients = Raise e
          → (e = AttributeError ∧ ∃ i rest, clients = ClientObj i :: rest)
            ∨ (e = TypeError ∧ ∃ z rest, clients = RawId z :: rest)).
Proof.
  split.
  - intros ids. unfold parse_clients. destruct clients as [| [z | i] rest].
    + rewrite map_int_of_Ok. split; [tauto |].
      intros [H | H]; destruct ids; try discriminate; reflexivity.
    + rewrite map_int_of_Ok. split; [tauto |]. intros [H | H]; [exact H |].
      destruct ids; discriminate.
    + rewrite map_client_id_of_Ok. split; [tauto |]. intros [H | H]; [| exact H].
      destruct ids; discriminate.
  - intros e. unfold parse_clients. destruct clients as [| [z | i] rest]; intros H.
    + discriminate.
    + right. apply map_result_raises in H as [x [_ Hx]].
      destruct x; cbn in Hx; inversion Hx. eauto.
    + left. apply map_result_raises in H as [x [_ Hx]].
      destruct x; cbn in Hx; inversion Hx. eauto.
Qed.

Lemma length_omap_le {A B} (f : A → option B) (l : list A) :
  (length (omap f l) ≤ length l)%nat.
Proof.
  induction l as [| x l IH]; cbn; [lia |]. destruct (f x); cbn; lia.
Qed.

Lemma sorted_lt_NoDup (l : list Z) : StronglySorted Z.lt l → NoDup l.
Proof.
  induction 1 as [| a l _ IH Hall]; constructor; [| exact IH].
  intros Hin. rewrite Forall_forall in Hall. specialize (Hall a Hin). lia.
Qed.

(** X13. A bitmap can only name configured clients: its active ids are
    distinct and each lies in [0 .. num_clients - 1], so there are at most
    [num_clients] of them. *)
Theorem X13_bitmap_ids_are_configured_clients (self : Network)
    (bitmap : list client_arg) :
  is_bitmap self bitmap = true
  → Forall (λ i, 0 ≤ i < num_clients self) (bitmap_ids bitmap)
    ∧ NoDup (bitmap_ids bitmap)
    ∧ Z.of_nat (length (bitmap_ids bitmap)) ≤ num_clients self.
Proof.
  intros Hbm. apply andb_prop in Hbm as [Hlen _].
  apply bool_decide_eq_true_1 in Hlen.
  split; [| split].
  - apply Forall_forall. intros z Hz. unfold bitmap_ids, enumerate in Hz.
    apply (elem_of_flagged bitmap 0 z) in Hz as [i [x [Hl [_ ->]]]].
    apply lookup_lt_Some in Hl. lia.
  - apply sorted_lt_NoDup. exact (flagged_sorted bitmap 0).
  - rewrite <- Hlen. apply inj_le. unfold bitmap_ids, enumerate.
    etransitivity; [apply length_omap_le |]. rewrite length_imap. lia.
Qed.

(** *** Entries that report no client of the round *)

Lemma out_of_range_not_mapped (ids : list Z) (e : Entry) :
  in_range (length ids) e = false → id_map_of ids !! local_of e = None.
Proof.
  intros Hr. destruct (id_map_of ids !! local_of e) as [real |] eqn:Hid;
    [| reflexivity].
  apply id_map_of_lookup in Hid as [H0 Hl]. apply lookup_lt_Some in Hl.
  unfold in_range in Hr. apply bool_decide_eq_false_1 in Hr. lia.
Qed.

Lemma sync_put_filter (self : Network) (ids : list Z) (es : list Entry)
    (acc : gmap Z SyncMetric) :
  foldl (sync_put self (id_map_of ids)) acc (List.filter (in_range (length ids)) es)
  = foldl (sync_put self (id_map_of ids)) acc es.
Proof.
  revert acc. induction es as [| e es IH]; intros acc; [reflexivity |].
  cbn [List.filter foldl]. destruct (in_range (length ids) e) eqn:Hr.
  - cbn [foldl]. apply IH.
  - rewrite IH. f_equal. unfold sync_put.
    rewrite (out_of_range_not_mapped ids e Hr). reflexivity.
Qed.

Lemma results_fold_filter (n : nat) (es : list Entry) (m1 m2 : gmap Z Entry)
    (i : nat) :
  (i < n)%nat → m1 !! Z.of_nat i = m2 !! Z.of_nat i
  → foldl (λ m e, <[local_of e := e]> m) m1 (List.filter (in_range n) es)
      !! Z.of_nat i
    = foldl (λ m e, <[local_of e := e]> m) m2 es !! Z.of_nat i.
Proof.
  intros Hi. revert m1 m2. induction es as [| e es IH]; intros m1 m2 Hm;
    [exact Hm |].
  cbn [List.filter foldl]. destruct (in_range n e) eqn:Hr.
  - cbn [foldl]. apply IH. rewrite !lookup_insert. case_decide; [reflexivity | exact Hm].
  - apply IH. rewrite lookup_insert_ne; [exact Hm |].
    unfold in_range in Hr. apply bool_decide_eq_false_1 in Hr. lia.
Qed.

Lemma omap_ext_elem {A B} (f g : A → option B) (l : list A) :
  (∀ x, x ∈ l → f x = g x) → omap f l = omap g l.
Proof.
  induction l as [| a l IH]; intros H; cbn; [reflexivity |].
  rewrite (H a) by left. rewrite IH; [reflexivity |].
  intros x Hx. apply H. right. exact Hx.
Qed.

(** X15. Over-reporting is ignored. Entries whose local index is not
    one of the round's (negative, too large, or absent) change nothing: a
    summary and the same summary without those entries give the same
    synchronous result, and on a normal exit the same poll. *)
Theorem X15_foreign_entries_are_ignored (self : Network)
    (array : list client_arg) (run run' : CompletedProcess)
    (env env' : PollEnv) (p : Popen) (rc rc' : Z) (ids : list Z)
    (data data' : Summary) :
  get_clientResults data
  = List.filter (in_range (length ids)) (get_clientResults data')
  → (active_ids_of self array = Ok ids → ids ≠ []
     → returncode run = 0 → returncode run' = 0
     → _parse_last_json (stdout run) = Ok data
     → _parse_last_json (stdout run') = Ok data'
     → sendRequest self array run = sendRequest self array run')
    ∧ (_async_ids self = ids → _proc self = Some p
       → env_poll env = Some rc → env_poll env' = Some rc'
       → _parse_last_json (env_comm env).1 = Ok data
       → _parse_last_json (env_comm env').1 = Ok data'
       → readAsyncResponse self env = readAsyncResponse self env').
Proof.
  intros Hfilter. split.
  - intros Hids Hne Hrc Hrc' Hparse Hparse'.
    rewrite !(sendRequest_nonempty self array _ ids Hids Hne).
    rewrite !bool_decide_eq_false_2 by (intros Hc; contradiction).
    rewrite Hparse, Hparse'. cbn [mbind result_mbind Py.bind].
    rewrite !sync_loop_closed, Hfilter, sync_put_filter. reflexivity.
  - intros Hids Hp Hpoll Hpoll' Hparse Hparse'.
    rewrite (poll_finished self env p rc data Hp Hpoll Hparse).
    rewrite (poll_finished self env' p rc' data' Hp Hpoll' Hparse').
    assert (Hrecs : reported_records self data = reported_records self data').
    { unfold reported_records. apply omap_ext_elem. intros q Hq.
      apply enumerate_elem in Hq as [i [Hq1 Hq2]]. rewrite Hq1.
      unfold results_of. rewrite Hfilter, <- Hids.
      rewrite (results_fold_filter (length (_async_ids self)) _ ∅ ∅ i);
        [reflexivity | | reflexivity].
      eapply lookup_lt_Some. exact Hq2. }
    rewrite Hrecs. reflexivity.
Qed.

(** *** Completion times *)


(** *** Whole rounds *)

Lemma results_fold_untouched (es : list Entry) (m : gmap Z Entry) (key : Z) :
  Forall (λ e, local_of e ≠ key) es
  → foldl (λ m e, <[local_of e := e]> m) m es !! key = m !! key.
Proof.
  intros H. revert m. induction H as [| e es He _ IH]; intros m; [reflexivity |].
  cbn [foldl]. rewrite IH. apply lookup_insert_ne. exact He.
Qed.

Lemma drained_lookup (q : list (gmap Z AsyncMetric)) (n i : nat)
    (r : gmap Z AsyncMetric) :
  (i < n)%nat → q !! i = Some r → drained q n !! i = Some (Ok (RDict r)).
Proof.
  intros Hi Hq. unfold drained. rewrite lookup_take_lt by exact Hi.
  rewrite lookup_app_l.
  - rewrite list_lookup_fmap, Hq. reflexivity.
  - rewrite length_fmap. eapply lookup_lt_Some. exact Hq.
Qed.

(** X17. A killed process's output still counts. On the timeout path,
    a client that the captured output does report is delivered with its
    reported metric, at its place in the order of the active set: the poll
    [i] polls after the one that timed out answers the record of the client
    with local index [i], built from the last entry reporting it. *)
Theorem X17_timeout_keeps_reported_metric (self : Network) (p : Popen)
    (env : PollEnv) (envs : list PollEnv) (es1 es2 : list Entry) (e : Entry)
    (i : nat) (k : Z) :
  reachable self → _proc self = Some p
  → env_poll env = None → deadline_passed self env = true
  → get_clientResults (timeout_data (escalate env).1) = es1 ++ e :: es2
  → local_of e = Z.of_nat i → _async_ids self !! i = Some k
  → Forall (λ e', local_of e' ≠ Z.of_nat i) es2
  → (i ≤ length envs)%nat
  → poll_seq self (env :: envs) !! i = Some (Ok (RDict {[ k := metric_of self e ]})).
Proof.
  intros Hreach Hp Hpoll Hdl Hes Hlocal Hi Hlater Hlen.
  destruct (reachable_handle_inv self Hreach) as [Hq _]; [congruence |].
  cbn [poll_seq]. pose proof (poll_timeout self env p Hp Hpoll Hdl) as H.
  rewrite Hq in H. cbn [app] in H. rewrite H.
  rewrite poll_seq_draining by reflexivity. rewrite <- drained_step.
  apply drained_lookup; [lia |].
  rewrite (timeout_records_lookup self _ i k Hi).
  unfold results_of. rewrite Hes, foldl_app. cbn [foldl].
  rewrite results_fold_untouched by exact Hlater.
  rewrite Hlocal, lookup_insert_eq. reflexivity.
Qed.

Lemma poll_seq_app (self : Network) (envs1 envs2 : list PollEnv) :
  poll_seq self (envs1 ++ envs2)
  = poll_seq self envs1 ++ poll_seq (poll_state self envs1) envs2.
Proof.
  revert self. induction envs1 as [| env envs1 IH]; intros self; [reflexivity |].
  cbn [app poll_seq poll_state].
  destruct (readAsyncResponse self env) as [[r self'] evs]. cbn [fst snd].
  rewrite IH. reflexivity.
Qed.

Lemma poll_state_app (self : Network) (envs1 envs2 : list PollEnv) :
  poll_state self (envs1 ++ envs2) = poll_state (poll_state self envs1) envs2.
Proof.
  revert self. induction envs1 as [| env envs1 IH]; intros self; [reflexivity |].
  cbn [app poll_state]. apply IH.
Qed.

Lemma polls_in_progress (self : Network) (p : Popen) (envs : list PollEnv) :
  _proc self = Some p
  → Forall (λ env, env_poll env = None ∧ deadline_passed self env = false) envs
  → poll_seq self envs = replicate (length envs) (Ok (RDict ∅))
    ∧ poll_state self envs = self.
Proof.
  intros Hp. induction 1 as [| env envs [Hpoll Hdl] _ [IH1 IH2]];
    [split; reflexivity |].
  cbn [poll_seq poll_state length replicate].
  rewrite (poll_in_progress self env p Hp Hpoll Hdl). cbn [fst snd].
  rewrite IH1, IH2. split; reflexivity.
Qed.

Lemma poll_state_drained (self : Network) (envs : list PollEnv) :
  _proc self = None → (length (_async_queue self) ≤ length envs)%nat
  → is_idle (poll_state self envs).
Proof.
  revert self. induction envs as [| env envs IH]; intros self Hp Hlen.
  - cbn. split; [exact Hp |]. destruct (_async_queue self); [reflexivity |].
    cbn in Hlen. lia.
  - cbn [poll_state]. rewrite (poll_draining self env Hp). cbn [fst snd].
    apply IH; [exact Hp |]. cbn [_async_queue set_async_queue].
    destruct (_async_queue self); cbn in *; lia.
Qed.

(** X18. A whole round on the normal path. After a start that
    launched a process, the polls made while the process is alive before
    the deadline answer the in-progress marker; the poll that finds it
    exited with a parseable summary, and the polls after it, answer one
    record per reported client, in the order of the active set, and then the
    end sentinel; and once there have been enough polls for all records
    the session is idle again. *)
Theorem X18_normal_round_from_start_to_idle (self self1 : Network)
    (array : list client_arg) (now : float) (cmd : list arg)
    (waiting rest : list PollEnv) (final : PollEnv) (rc : Z) (data : Summary) :
  sendAsyncRequest self array now = (Ok (), self1, [EvPopen cmd])
  → Forall (λ env, env_poll env = None ∧ deadline_passed self1 env = false) waiting
  → env_poll final = Some rc → _parse_last_json (env_comm final).1 = Ok data
  → poll_seq self1 (waiting ++ final :: rest)
    = replicate (length waiting) (Ok (RDict ∅))
      ++ drained (reported_records self1 data) (S (length rest))
    ∧ ((length (reported_records self1 data) ≤ length rest)%nat
       → is_idle (poll_state self1 (waiting ++ final :: rest))).
Proof.
  intros Hstart Hwait Hpoll Hparse.
  assert (Hself1 : ∃ p, _proc self1 = Some p ∧ _async_queue self1 = []).
  { unfold sendAsyncRequest in Hstart.
    destruct (_proc self); [discriminate |].
    destruct (active_ids_of self array) as [[| id ids] | e];
      inversion Hstart; subst. cbn. eexists. split; reflexivity. }
  destruct Hself1 as [p [Hp Hq]].
  destruct (polls_in_progress self1 p waiting Hp Hwait) as [Hseq Hstate].
  pose proof (poll_finished self1 final p rc data Hp Hpoll Hparse) as Hfin.
  rewrite Hq in Hfin. cbn [app] in Hfin.
  split.
  - rewrite poll_seq_app, Hseq, Hstate. f_equal.
    cbn [poll_seq]. rewrite Hfin.
    rewrite poll_seq_draining by reflexivity. rewrite drained_step. reflexivity.
  - intros Hlen. rewrite poll_state_app, Hstate. cbn [poll_state].
    rewrite Hfin. cbn [fst snd]. apply poll_state_drained; [reflexivity |].
    cbn [_async_queue set_async_queue].
    destruct (reported_records self1 data); cbn in *; lia.
Qed.

End Further.


(** ** The further properties at the samples *)

Lemma sample_idle_reachable : reachable Sample.idle.
Proof. apply (reach_new 10 Sample.thz 1600 Sample.build_ok). reflexivity. Qed.

(** X2 at the noisy output: the summary is the third of five lines. *)
Lemma X2_witness : _parse_last_json Cases.noisy_output = Ok Sample.summary.
Proof.
  rewrite (X2_parser_decodes_last_object_line Cases.noisy_output
             ["Waf: Entering directory"; "{not json"]%string
             ["Simulation done."; ""]%string
             ("  " ++ Sample.summary_line ++ " ")%string).
  - reflexivity.
  - reflexivity.
  - reflexivity.
  - repeat constructor.
Defined.

(** X3 at the noisy output, read as text. *)
Lemma X3_witness :
  _parse_last_json
    (unlines ["Waf: Entering directory"; "{not json";
              "  " ++ Sample.summary_line ++ " "; "Simulation done."; ""]%string)
  = Ok Sample.summary.
Proof.
  rewrite (X3_parser_finds_padded_summary
             ["Waf: Entering directory"; "{not json"]%string
             ["Simulation done."; ""]%string "  "%string " "%string
             Sample.summary_line).
  - reflexivity.
  - repeat constructor.
  - reflexivity.
  - reflexivity.
  - reflexivity.
  - repeat constructor.
Defined.


(** X5 at the sample: after the crash the session is idle. *)
Lemma X5_witness :
  is_idle (set_proc None Sample.running)
  ∧ poll_seq (set_proc None Sample.running) [Sample.alive 4%float; Sample.alive 5%float]
    = [Ok REnd; Ok REnd].
Proof.
  destruct (X5_failed_round_leaves_idle Sample.running
              {| popen_args := _cmd Sample.idle 10 3 1600 |} 139 Cases.crashed
              (RuntimeError "No JSON summary found in ns-3 output."))
    as [_ [Hidle Hpolls]].
  - exact sample_running_reachable.
  - reflexivity.
  - reflexivity.
  - reflexivity.
  - split; [exact Hidle |].
    exact (Hpolls [Sample.alive 4%float; Sample.alive 5%float]).
Defined.

(** X6 at the sample: two polls empty the draining session, the third
    answers the end sentinel and leaves the session idle. *)
Lemma X6_witness :
  is_idle (readAsyncResponse
             (poll_state Sample.draining [Sample.alive 13%float; Sample.alive 14%float])
             (Sample.alive 15%float)).1.2.
Proof.
  apply (X6_end_means_idle
           (poll_state Sample.draining [Sample.alive 13%float; Sample.alive 14%float])
           (Sample.alive 15%float)).
  - apply reach_poll, reach_poll. exact sample_draining_reachable.
  - reflexivity.
Defined.

(** X7 at the draining sample: the two queued records are those of
    clients 7 and 9. *)
Lemma X7_witness :
  Forall (is_client_record [3; 7; 9]) [Sample.made_up 7; Sample.made_up 9].
Proof.
  exact (proj1 (X7_records_belong_to_round Sample.draining (Sample.alive 13%float)
                  (Sample.made_up 7) sample_draining_reachable)).
Defined.

(** X8 at the running sample: the deadline is set and the process was
    launched for three clients. *)
Lemma X8_witness :
  is_Some (_deadline Sample.running)
  ∧ FlagInt "clients" 3 ∈ _cmd Sample.idle 10 3 1600.
Proof.
  destruct (X8_held_process_has_deadline_and_command Sample.running
              {| popen_args := _cmd Sample.idle 10 3 1600 |})
    as [Hdl [_ [_ [_ Hflag]]]].
  - exact sample_running_reachable.
  - reflexivity.
  - split; [exact Hdl | exact Hflag].
Defined.

(** X10 at a summary that reports client 9 twice: the second report,
    with end time 2 and 3000 bytes, is the one returned. *)
Lemma X10_witness :
  ∃ out, (sendRequest (loads := Cases.loads) Sample.idle Sample.ids Cases.run_late).1
         = Ok out
    ∧ out !! 9 = Some {| s_roundTime := 2%float; s_throughput := 1500%float |}.
Proof.
  exact (X10_sync_last_report_wins (loads := Cases.loads) Sample.idle Sample.ids
           Cases.run_late [3; 7; 9] Cases.late_summary
           [Sample.entry0; Sample.entry2] [Cases.entry1_zero] Cases.entry2_late
           2%nat 9 eq_refl eq_refl eq_refl eq_refl eq_refl eq_refl
           ltac:(repeat constructor; intros j Hj; assert (j = 1%nat) by (cbn in Hj; lia);
                 subst; discriminate)).
Defined.

(** X11 at the sample: the asynchronous round delivers the two entries
    of the synchronous result. *)
Lemma X11_witness :
  ∃ recs : list (gmap Z AsyncMetric),
    poll_seq Sample.running
      [Sample.exited 0 3%float; Sample.alive 4%float; Sample.alive 5%float]
    = drained recs 3
    ∧ (Sample.sync_out !! 9
       = Some {| s_roundTime := 1%float; s_throughput := 2000%float |}
       ↔ Sample.reported9 ∈ recs).
Proof.
  destruct (X11_async_delivers_the_sync_result Sample.idle Sample.ids Sample.run_ok
              1%float (Sample.exited 0 3%float)
              [Sample.alive 4%float; Sample.alive 5%float] 0 [3; 7; 9]
              Sample.sync_out [EvRun (_cmd Sample.idle 10 3 1600)])
    as [recs [Hseq Hsame]].
  - reflexivity.
  - reflexivity.
  - repeat constructor; intros Hin; repeat (apply elem_of_cons in Hin as [Hin | Hin];
      [discriminate |]); inversion Hin.
  - reflexivity.
  - reflexivity.
  - reflexivity.
  - exists recs. split; [exact Hseq |].
    exact (Hsame 9 {| s_roundTime := 1%float; s_throughput := 2000%float |}).
Defined.

(** X13 at the sample bitmap. *)
Lemma X13_witness :
  Forall (λ i, 0 ≤ i < 10) [3; 7; 9] ∧ NoDup [3; 7; 9].
Proof.
  destruct (X13_bitmap_ids_are_configured_clients Sample.idle Sample.bitmap)
    as [Hrange [Hnd _]].
  - reflexivity.
  - split; [exact Hrange | exact Hnd].
Defined.


(** X15 at the over-reporting summary: the three foreign entries change
    neither the synchronous result nor the poll. *)
Lemma X15_witness :
  sendRequest (loads := Cases.loads) Sample.idle Sample.ids Sample.run_ok
  = sendRequest (loads := Cases.loads) Sample.idle Sample.ids Cases.run_over
  ∧ readAsyncResponse (loads := Cases.loads) Sample.running (Sample.exited 0 3%float)
    = readAsyncResponse (loads := Cases.loads) Sample.running Cases.exited_over.
Proof.
  destruct (X15_foreign_entries_are_ignored (loads := Cases.loads) Sample.idle
              Sample.ids Sample.run_ok Cases.run_over (Sample.exited 0 3%float)
              Cases.exited_over {| popen_args := _cmd Sample.idle 10 3 1600 |}
              0 0 [3; 7; 9] Sample.summary Cases.over_summary)
    as [Hsync _].
  - reflexivity.
  - destruct (X15_foreign_entries_are_ignored (loads := Cases.loads) Sample.running
                Sample.ids Sample.run_ok Cases.run_over (Sample.exited 0 3%float)
                Cases.exited_over {| popen_args := _cmd Sample.idle 10 3 1600 |}
                0 0 [3; 7; 9] Sample.summary Cases.over_summary)
      as [_ Hasync].
    + reflexivity.
    + split.
      * apply Hsync; try reflexivity. discriminate.
      * apply Hasync; reflexivity.
Defined.


(** X17 at the sample: the process ignores the request to terminate,
    is killed at twelve seconds having printed the summary, and the third
    poll answers client 9 with its reported metric. *)
Lemma X17_witness :
  poll_seq Sample.running [Cases.stubborn; Sample.alive 13%float; Sample.alive 14%float]
    !! 2%nat
  = Some (Ok (RDict Sample.reported9)).
Proof.
  apply (X17_timeout_keeps_reported_metric Sample.running
           {| popen_args := _cmd Sample.idle 10 3 1600 |} Cases.stubborn
           [Sample.alive 13%float; Sample.alive 14%float]
           [Sample.entry0] [] Sample.entry2 2%nat 9).
  - exact sample_running_reachable.
  - reflexivity.
  - reflexivity.
  - reflexivity.
  - reflexivity.
  - reflexivity.
  - reflexivity.
  - constructor.
  - cbn. lia.
Defined.

(** X18 at the sample: two polls while running, then the exit. *)
Lemma X18_witness :
  poll_seq Sample.running
    [Sample.alive 2%float; Sample.alive 3%float; Sample.exited 0 4%float;
     Sample.alive 5%float; Sample.alive 6%float; Sample.alive 7%float]
  = [Ok (RDict ∅); Ok (RDict ∅); Ok (RDict Sample.reported3);
     Ok (RDict Sample.reported9); Ok REnd; Ok REnd].
Proof.
  destruct (X18_normal_round_from_start_to_idle Sample.idle Sample.running
              Sample.ids 1%float (_cmd Sample.idle 10 3 1600)
              [Sample.alive 2%float; Sample.alive 3%float]
              [Sample.alive 5%float; Sample.alive 6%float; Sample.alive 7%float]
              (Sample.exited 0 4%float) 0 Sample.summary)
    as [Hseq _].
  - reflexivity.
  - repeat constructor.
  - reflexivity.
  - reflexivity.
  - exact Hseq.
Defined.
